(** * MindVectorGraph: the live mind-vector client

    A shallow embedding of [components/MindVectorPanel/MindVectorGraph.tsx]:
    the radar-data normaliser, the WebSocket handlers, the HTTP fetch and the
    mount effect, as functions over an explicit component state.

    JavaScript values coming out of [JSON.parse] and [resp.json()] are
    untyped at run time, so they are modelled by the dynamic type [any];
    a thrown exception is [None] in the [option] monad. *)

From Stdlib Require Import List String Ascii Bool Arith ZArith QArith Lia.
From Stdlib Require Import Sorted Permutation.
From Stdlib Require OrdersEx.
Import ListNotations.
Close Scope Q_scope.
Open Scope list_scope.
Open Scope string_scope.

Set Implicit Arguments.
Set Warnings "-register-all".

(** ** JavaScript values *)

(** A JavaScript number.  Finite values are kept as exact rationals: the
    component never computes with them, it only classifies them (NaN,
    infinite, zero) and passes them on.  [-0] is identified with [0]; both are
    falsy and finite. *)
Inductive number : Type :=
| NaN
| Infinity (negative : bool)
| Finite (q : Q).

Definition isNaN (n : number) : bool :=
  match n with NaN => true | _ => false end.

Definition isFinite (n : number) : bool :=
  match n with Finite _ => true | _ => false end.

Definition zero : number := Finite 0.

(** ToBoolean on numbers: [NaN] and zero are falsy. *)
Definition truthyNumber (n : number) : bool :=
  match n with
  | NaN => false
  | Infinity _ => true
  | Finite q => negb (Qnum q =? 0)%Z
  end.

(** The values the component handles: results of [JSON.parse], of
    [resp.json()], and the objects the component builds from them. An object
    is its list of own properties, in insertion order. *)
Inductive any : Type :=
| VUndefined
| VNull
| VBool (b : bool)
| VNum (n : number)
| VStr (s : string)
| VArr (elems : list any)
| VObj (props : list (string * any)).

(** Exceptions: [None] is a thrown error, every one of which the component
    either catches wholesale or lets abort the computation. *)
Notation "x <- e ;; k" :=
  (match e with Some x => k | None => None end)
  (at level 61, e at next level, right associativity, only parsing).

Fixpoint mapM {A B : Type} (f : A -> option B) (l : list A) : option (list B) :=
  match l with
  | [] => Some []
  | a :: l' => b <- f a ;; bs <- mapM f l' ;; Some (b :: bs)
  end.

Definition ToBoolean (v : any) : bool :=
  match v with
  | VUndefined | VNull => false
  | VBool b => b
  | VNum n => truthyNumber n
  | VStr s => negb (s =? EmptyString)
  | VArr _ | VObj _ => true
  end.

(** [a || b] *)
Definition or_else (a b : any) : any := if ToBoolean a then a else b.

(** [a ?? b] *)
Definition nullish (a b : any) : any :=
  match a with VUndefined | VNull => b | _ => a end.

(** The own property [k] of an object; property names are distinct, the
    first entry of a name is the one that counts. *)
Definition own (k : string) (props : list (string * any)) : option any :=
  option_map snd (find (fun kv => fst kv =? k) props).

(** [v.k] for the property names the component reads ([type], [data],
    [timestamp], [dimensions], [vector], [visualState], [emoji], [name],
    [label], [value]): none of them lives on a prototype, so the access is
    the own property or [undefined]; on [null] and [undefined] it throws. *)
Definition get (v : any) (k : string) : option any :=
  match v with
  | VUndefined | VNull => None
  | VObj props => Some (match own k props with Some x => x | None => VUndefined end)
  | _ => Some VUndefined
  end.

(** [v?.k] *)
Definition get_opt (v : any) (k : string) : any :=
  match get v k with Some x => x | None => VUndefined end.

(** ** The host

    The parts of the JavaScript host that the component calls and whose
    algorithms are not reproduced here. *)
Class Host : Type := {
  (** sign of [s.localeCompare(t)] in the host's default locale *)
  localeCompare : string -> string -> comparison;
  (** ECMAScript StringToNumber *)
  StringToNumber : string -> number;
  (** ECMAScript Number::toString *)
  NumberToString : number -> string;
  (** whether [new WebSocket(url)] returns instead of throwing *)
  WebSocket_accepts : string -> bool
}.

Section Coercions.
Context {H : Host}.

Fixpoint joinComma (l : list string) : string :=
  match l with
  | [] => EmptyString
  | [s] => s
  | s :: l' => s ++ "," ++ joinComma l'
  end.

(** ToString.  Arrays go through [Array.prototype.join]; a plain object
    prints as [[object Object]] unless an own (hence non-callable)
    [toString] property shadows the inherited method, in which case
    OrdinaryToPrimitive throws. *)
Fixpoint ToString (v : any) : option string :=
  match v with
  | VUndefined => Some "undefined"
  | VNull => Some "null"
  | VBool b => Some (if b then "true" else "false")
  | VNum n => Some (NumberToString n)
  | VStr s => Some s
  | VArr l =>
      ss <- mapM (fun x => match x with
                           | VUndefined | VNull => Some EmptyString
                           | _ => ToString x
                           end) l ;;
      Some (joinComma ss)
  | VObj props =>
      match own "toString" props with
      | Some _ => None
      | None => Some "[object Object]"
      end
  end.

(** [Number(v)] *)
Definition Number (v : any) : option number :=
  match v with
  | VUndefined => Some NaN
  | VNull => Some zero
  | VBool b => Some (Finite (if b then 1 else 0))
  | VNum n => Some n
  | VStr s => Some (StringToNumber s)
  | VArr _ | VObj _ => s <- ToString v ;; Some (StringToNumber s)
  end.

End Coercions.

(** ** The mind vector and its radar data *)

(** [type MindVector].  The TypeScript field types are erased at run time and
    the handlers fill the fields straight from parsed JSON, so each field
    holds whatever the payload carried. *)
Record MindVector : Type := {
  timestamp : any;
  dimensions : any;
  visualState : any;
  emoji : any
}.

(** One axis of the radar chart: [{ subject, value }]. *)
Record RadarDatum : Type := {
  subject : any;
  value : number
}.

Section Normalizer.
Context {H : Host}.

(** The comparator [(a, b) => a.name.localeCompare(b.name)]: [a.name] has to
    be a string for the method to exist, [b.name] is converted with
    ToString. *)
Definition compareByName (a b : any) : option comparison :=
  an <- get a "name" ;;
  match an with
  | VStr s =>
      bn <- get b "name" ;;
      t <- ToString bn ;;
      Some (localeCompare s t)
  | _ => None
  end.

(** [Array.prototype.sort] with that comparator.  ECMAScript leaves to the
    engine which pairs of entries the comparator is called on; the model
    follows V8, which always passes the later entry first.  The entries are
    taken in array order and each is inserted among the ones before it: it
    is compared with them from the greatest down and put behind the first
    one it is not smaller than (V8 finds that place by bisection), so that
    entries that compare equal keep their order: the sort is stable
    (ECMAScript 2019).  [insertByName x sorted] takes the entries before [x]
    sorted, greatest first. *)
Fixpoint insertByName (x : any) (sorted : list any) : option (list any) :=
  match sorted with
  | [] => Some [x]
  | y :: ys =>
      c <- compareByName x y ;;
      match c with
      | Lt => r <- insertByName x ys ;; Some (y :: r)
      | _ => Some (x :: y :: ys)
      end
  end.

Fixpoint insertAll (l sorted : list any) : option (list any) :=
  match l with
  | [] => Some sorted
  | x :: xs => s <- insertByName x sorted ;; insertAll xs s
  end.

Definition sortByName (l : list any) : option (list any) :=
  s <- insertAll l [] ;; Some (rev s).

(** [Number(d.value) || 0] *)
Definition numberOrZero (n : number) : number :=
  if truthyNumber n then n else zero.

(** [(d) => ({ subject: d.name, value: Number(d.value) || 0 })] *)
Definition toRadarDatum (d : any) : option RadarDatum :=
  n <- get d "name" ;;
  v <- get d "value" ;;
  x <- Number v ;;
  Some {| subject := n; value := numberOrZero x |}.

(** [normalizeToRadarData(vector)]: [slice], [sort] and [map] exist on arrays
    only, any other [dimensions] throws. *)
Definition normalizeToRadarData (vector : MindVector) : option (list RadarDatum) :=
  match dimensions vector with
  | VArr l => s <- sortByName l ;; mapM toRadarDatum s
  | _ => None
  end.

(** The sort key of a raw dimension entry, and the order of two entries. *)
Definition keyOf (d : any) : option string :=
  n <- get d "name" ;; ToString n.

Definition rawLe (a b : any) : Prop :=
  exists s t, keyOf a = Some s /\ keyOf b = Some t /\ localeCompare s t <> Gt.

(** An entry whose [name] is a string. *)
Definition hasStringName (d : any) : Prop :=
  exists s, get d "name" = Some (VStr s).

(** An entry whose name converts to a string. *)
Definition hasKey (d : any) : Prop :=
  exists s, keyOf d = Some s.

(** Two neighbouring raw entries are in order when the comparator, called
    the way the sort calls it (the later entry first), does not answer that
    the later one is the smaller. *)
Definition inOrder (a b : any) : Prop :=
  exists c, compareByName b a = Some c /\ c <> Lt.

(** Two axes are in order when the name of the first does not come after the
    name of the second under [localeCompare]. *)
Definition nameLe (u w : RadarDatum) : Prop :=
  exists s t, ToString (subject u) = Some s /\ ToString (subject w) = Some t
              /\ localeCompare s t <> Gt.

End Normalizer.


(** ** A host for the examples

    Collation by code unit, and the string/number conversions on optionally
    signed runs of decimal digits, which is all the examples convert (other
    strings read as NaN, fractions are printed without their fractional
    part).  The theorems hold for every host. *)

Definition digitValue (c : ascii) : option Z :=
  let n := nat_of_ascii c in
  if (48 <=? n)%nat && (n <=? 57)%nat then Some (Z.of_nat (n - 48)) else None.

Fixpoint readDigits (acc : Z) (s : string) : option Z :=
  match s with
  | EmptyString => Some acc
  | String c s' =>
      match digitValue c with
      | Some d => readDigits (10 * acc + d) s'
      | None => None
      end
  end.

Definition readInteger (s : string) : number :=
  match s with
  | EmptyString => zero
  | String "-"%char (String c r) =>
      match readDigits 0 (String c r) with
      | Some z => Finite (inject_Z (- z))
      | None => NaN
      end
  | _ =>
      match readDigits 0 s with
      | Some z => Finite (inject_Z z)
      | None => NaN
      end
  end.

Fixpoint showDigits (fuel : nat) (n : N) (acc : string) : string :=
  match fuel with
  | O => acc
  | S fuel' =>
      let acc' := String (ascii_of_N (48 + N.modulo n 10)) acc in
      if (n <? 10)%N then acc' else showDigits fuel' (N.div n 10) acc'
  end.

Definition showNat (n : nat) : string :=
  showDigits (S n) (N.of_nat n) EmptyString.

Definition showNumber (n : number) : string :=
  match n with
  | NaN => "NaN"
  | Infinity true => "-Infinity"
  | Infinity false => "Infinity"
  | Finite q =>
      let z := (Qnum q / Zpos (Qden q))%Z in
      (if (z <? 0)%Z then "-" else EmptyString) ++ showNat (Z.abs_nat z)
  end.

#[export] Instance exampleHost : Host := {
  localeCompare := String.compare;
  StringToNumber := readInteger;
  NumberToString := showNumber;
  WebSocket_accepts := fun url => prefix "ws" url
}.

Definition dim (name : string) (v : any) : any :=
  VObj [("name", VStr name); ("value", v)].

Definition vectorOf (dims : any) : MindVector :=
  {| timestamp := VStr "2024-01-01T00:00:00.000Z"; dimensions := dims;
     visualState := VUndefined; emoji := VUndefined |}.

(** ** Outbound messages *)

Definition quoteChar : ascii := "034"%char.
Definition backslash : ascii := "092"%char.

Definition hexDigit (n : nat) : ascii :=
  if (n <? 10)%nat then ascii_of_nat (48 + n) else ascii_of_nat (87 + n).

(** QuoteJSONString, on the UTF-8 bytes of the string: the quote, the
    backslash and the control characters are escaped, everything else is
    copied. *)
Definition escapeChar (c : ascii) : string :=
  let n := nat_of_ascii c in
  if (n =? 8)%nat then String backslash "b"
  else if (n =? 9)%nat then String backslash "t"
  else if (n =? 10)%nat then String backslash "n"
  else if (n =? 12)%nat then String backslash "f"
  else if (n =? 13)%nat then String backslash "r"
  else if (n =? 34)%nat then String backslash (String quoteChar EmptyString)
  else if (n =? 92)%nat then String backslash (String backslash EmptyString)
  else if (n <? 32)%nat then
    String backslash ("u00" ++ String (hexDigit (n / 16)) (String (hexDigit (n mod 16)) EmptyString))
  else String c EmptyString.

Fixpoint escapeString (s : string) : string :=
  match s with
  | EmptyString => EmptyString
  | String c s' => escapeChar c ++ escapeString s'
  end.

Definition quoteJSON (s : string) : string :=
  String quoteChar (escapeString s ++ String quoteChar EmptyString).

(** [JSON.stringify] on the objects the component sends: flat records of
    string properties. *)
Definition stringifyRecord (fields : list (string * string)) : string :=
  "{" ++ joinComma (map (fun kv => quoteJSON (fst kv) ++ ":" ++ quoteJSON (snd kv)) fields)
      ++ "}".

(** A string between double quotes, as it reads in JSON text when nothing
    in it needs escaping. *)
Definition inQuotes (s : string) : string :=
  String quoteChar (s ++ String quoteChar EmptyString).

(** ** The component *)

Definition DEFAULT_POLLING_INTERVAL : N := 15000%N.

(** [MindVectorGraphProps], without [className].  [onUpdate] tells, for each
    vector it is called with, whether it returns ([true]) or throws. *)
Record Props : Type := {
  walletAddress : option string;
  websocketUrl : option string;
  fetchApiUrl : option string;
  pollingIntervalMs : option N;
  onUpdate : option (MindVector -> bool)
}.

(** Truthiness of an optional string prop: present and not empty. *)
Definition given (p : option string) : bool :=
  match p with
  | Some s => negb (s =? EmptyString)
  | None => false
  end.

Inductive ReadyState : Type := CONNECTING | OPEN | CLOSING | CLOSED.

(** The component instance: its React state, its refs, and the host
    resources it has created (sockets, timers, requests), each named by a
    handle. [sent] and [notified] log [ws.send] and [onUpdate] calls, oldest
    first. *)
Record State : Type := mkState {
  current : option MindVector;
  history : list MindVector;
  statusMessage : string;
  wsRef : option nat;
  pollingRef : option nat;
  mountedRef : bool;
  sockets : list (nat * ReadyState);
  sent : list (nat * string);
  timeouts : list nat;
  intervals : list (nat * N);
  inflight : list nat;
  notified : list MindVector;
  nextHandle : nat
}.

Definition initialState : State :=
  {| current := None; history := []; statusMessage := "Initializing…";
     wsRef := None; pollingRef := None; mountedRef := true;
     sockets := []; sent := []; timeouts := []; intervals := [];
     inflight := []; notified := []; nextHandle := 0 |}.

Definition setCurrent (v : MindVector) (s : State) : State :=
  mkState (Some v) (history s) (statusMessage s) (wsRef s) (pollingRef s)
    (mountedRef s) (sockets s) (sent s) (timeouts s) (intervals s) (inflight s)
    (notified s) (nextHandle s).

Definition setHistory (f : list MindVector -> list MindVector) (s : State) : State :=
  mkState (current s) (f (history s)) (statusMessage s) (wsRef s) (pollingRef s)
    (mountedRef s) (sockets s) (sent s) (timeouts s) (intervals s) (inflight s)
    (notified s) (nextHandle s).

Definition setStatusMessage (m : string) (s : State) : State :=
  mkState (current s) (history s) m (wsRef s) (pollingRef s)
    (mountedRef s) (sockets s) (sent s) (timeouts s) (intervals s) (inflight s)
    (notified s) (nextHandle s).

Definition setWsRef (r : option nat) (s : State) : State :=
  mkState (current s) (history s) (statusMessage s) r (pollingRef s)
    (mountedRef s) (sockets s) (sent s) (timeouts s) (intervals s) (inflight s)
    (notified s) (nextHandle s).

Definition setPollingRef (r : option nat) (s : State) : State :=
  mkState (current s) (history s) (statusMessage s) (wsRef s) r
    (mountedRef s) (sockets s) (sent s) (timeouts s) (intervals s) (inflight s)
    (notified s) (nextHandle s).

Definition setMountedRef (b : bool) (s : State) : State :=
  mkState (current s) (history s) (statusMessage s) (wsRef s) (pollingRef s)
    b (sockets s) (sent s) (timeouts s) (intervals s) (inflight s)
    (notified s) (nextHandle s).

Definition setSockets (l : list (nat * ReadyState)) (s : State) : State :=
  mkState (current s) (history s) (statusMessage s) (wsRef s) (pollingRef s)
    (mountedRef s) l (sent s) (timeouts s) (intervals s) (inflight s)
    (notified s) (nextHandle s).

Definition setSent (l : list (nat * string)) (s : State) : State :=
  mkState (current s) (history s) (statusMessage s) (wsRef s) (pollingRef s)
    (mountedRef s) (sockets s) l (timeouts s) (intervals s) (inflight s)
    (notified s) (nextHandle s).

Definition setTimeouts (l : list nat) (s : State) : State :=
  mkState (current s) (history s) (statusMessage s) (wsRef s) (pollingRef s)
    (mountedRef s) (sockets s) (sent s) l (intervals s) (inflight s)
    (notified s) (nextHandle s).

Definition setIntervals (l : list (nat * N)) (s : State) : State :=
  mkState (current s) (history s) (statusMessage s) (wsRef s) (pollingRef s)
    (mountedRef s) (sockets s) (sent s) (timeouts s) l (inflight s)
    (notified s) (nextHandle s).

Definition setInflight (l : list nat) (s : State) : State :=
  mkState (current s) (history s) (statusMessage s) (wsRef s) (pollingRef s)
    (mountedRef s) (sockets s) (sent s) (timeouts s) (intervals s) l
    (notified s) (nextHandle s).

Definition setNotified (l : list MindVector) (s : State) : State :=
  mkState (current s) (history s) (statusMessage s) (wsRef s) (pollingRef s)
    (mountedRef s) (sockets s) (sent s) (timeouts s) (intervals s) (inflight s)
    l (nextHandle s).

(** Take the next unused handle. *)
Definition freshHandle (s : State) : nat * State :=
  (nextHandle s,
   mkState (current s) (history s) (statusMessage s) (wsRef s) (pollingRef s)
     (mountedRef s) (sockets s) (sent s) (timeouts s) (intervals s) (inflight s)
     (notified s) (S (nextHandle s))).

(** [[vector, ...h].slice(0, 50)] *)
Definition pushHistory {A : Type} (vector : A) (h : list A) : list A :=
  firstn 50 (vector :: h).

(** The history after the vectors [vs] have been pushed one after the other,
    first to last. *)
Definition pushAll {A : Type} (vs : list A) (h : list A) : list A :=
  fold_left (fun h' vector => pushHistory vector h') vs h.

Arguments pushHistory : simpl never.


Definition lookupSocket (ws : nat) (l : list (nat * ReadyState)) : option ReadyState :=
  option_map snd (find (fun p => fst p =? ws)%nat l).

Definition retag (ws : nat) (r : ReadyState) (p : nat * ReadyState) : nat * ReadyState :=
  if (fst p =? ws)%nat then (ws, r) else p.

Definition setReadyState (ws : nat) (r : ReadyState) (s : State) : State :=
  setSockets (map (retag ws r) (sockets s)) s.

Definition readyState (ws : nat) (s : State) : option ReadyState :=
  lookupSocket ws (sockets s).

Definition removeHandle (h : nat) (l : list nat) : list nat :=
  filter (fun x => negb (x =? h)%nat) l.

(** What an HTTP request settles to: [fetch] rejects, or resolves to a
    response with a status and a body, whose [json()] either resolves to a
    value or rejects. *)
Inductive FetchResult : Type :=
| Rejected
| Response (status : nat) (body : option any).

(** What the host delivers to the component.  A message carries the outcome
    of [JSON.parse(evt.data)] ([None] when it throws); [now] is what
    [new Date().toISOString()] returns in the handler. *)
Inductive Event : Type :=
| WsOpen (ws : nat)
| WsMessage (ws : nat) (parsed : option any) (now : string)
| WsClose (ws : nat)
| WsError (ws : nat)
| TimeoutFired (t : nat)
| IntervalFired (t : nat)
| FetchSettled (f : nat) (r : FetchResult) (now : string).

Section Component.
Context {H : Host}.
Variable props : Props.

(** [ws.send(msg)]: throws while the socket is connecting, transmits when it
    is open, and is dropped once it is closing or closed. *)
Definition send (ws : nat) (msg : string) (s : State) : option State :=
  match readyState ws s with
  | Some OPEN => Some (setSent (sent s ++ [(ws, msg)])%list s)
  | Some CONNECTING => None
  | _ => Some s
  end.

(** [ws.close()] *)
Definition close (ws : nat) (s : State) : State :=
  match readyState ws s with
  | Some CONNECTING | Some OPEN => setReadyState ws CLOSING s
  | _ => s
  end.

(** The tail shared by both paths, from the [mountedRef] guard on:
<<
      if (!mountedRef.current) return;
      setCurrent(vector);
      setHistory((h) => [vector, ...h].slice(0, 50));
      onUpdate?.(vector);
      setStatusMessage(done);
>>
    The state setters have taken effect when [onUpdate] throws; [caught] is
    what the enclosing [catch] then does. *)
Definition accept (vector : MindVector) (done : string)
    (caught : State -> State) (s : State) : State :=
  if negb (mountedRef s) then s
  else
    let s1 := setHistory (pushHistory vector) (setCurrent vector s) in
    match onUpdate props with
    | None => setStatusMessage done s1
    | Some f =>
        let s2 := setNotified (notified s1 ++ [vector])%list s1 in
        if f vector then setStatusMessage done s2 else caught s2
    end.

Definition subscribeMsg : string :=
  stringifyRecord
    ([("type", "subscribe"); ("topic", "mindVector")]
       ++ match walletAddress props with
          | Some w => [("wallet", w)]
          | None => []
          end)%list.

Definition pongMsg : string := stringifyRecord [("type", "pong")].

(** The [open] listener. *)
Definition onOpen (ws : nat) (s : State) : State :=
  let s1 := setStatusMessage "Connected. Subscribing to mind vector updates…" s in
  match send ws subscribeMsg s1 with
  | Some s2 => s2
  | None => s1
  end.

(** The vector built from [payload.data] in the [message] listener. *)
Definition vectorOfUpdate (data : any) (now : string) : MindVector :=
  {| timestamp := or_else (get_opt data "timestamp") (VStr now);
     dimensions := or_else (get_opt data "dimensions") (VArr []);
     visualState := get_opt data "visualState";
     emoji := get_opt data "emoji" |}.

(** The [message] listener; the whole body sits in a [try] whose [catch] only
    logs. *)
Definition onMessage (ws : nat) (parsed : option any) (now : string)
    (s : State) : State :=
  match parsed with
  | None => s
  | Some payload =>
      match get_opt payload "type" with
      | VStr ty =>
          if (ty =? "mindVectorUpdate") && ToBoolean (get_opt payload "data") then
            accept (vectorOfUpdate (get_opt payload "data") now) "Live"
              (fun s' => s') s
          else if ty =? "ping" then
            match send ws pongMsg s with
            | Some s' => s'
            | None => s
            end
          else s
      | _ => s
      end
  end.

(** The [close] listener: the reconnection is left to a timer. *)
Definition onClose (ws : nat) (s : State) : State :=
  let s1 := setStatusMessage "WebSocket closed. Falling back to HTTP." s in
  let (t, s2) := freshHandle s1 in
  setTimeouts (timeouts s2 ++ [t])%list s2.

(** The [error] listener. *)
Definition onError (ws : nat) (s : State) : State :=
  close ws (setStatusMessage "WebSocket error. Using HTTP fallback." s).

(** [connectWebSocket()] *)
Definition connectWebSocket (s : State) : State :=
  if negb (given (websocketUrl props)) || negb (given (walletAddress props)) then
    setStatusMessage
      "No WebSocket configured or wallet unspecified — using HTTP fallback." s
  else
    match websocketUrl props with
    | Some url =>
        if WebSocket_accepts url then
          let (ws, s1) := freshHandle s in
          let s2 := setSockets (sockets s1 ++ [(ws, CONNECTING)])%list s1 in
          setStatusMessage "Connecting to live updates…" (setWsRef (Some ws) s2)
        else
          setStatusMessage "WebSocket init error. Using HTTP fallback." s
    | None => s
    end.

(** The callback of the reconnection timer. *)
Definition onReconnectTimer (s : State) : State :=
  if mountedRef s then connectWebSocket s else s.

(** [fetchOnce()] up to its first [await]: the request is issued.  Its URL
    (the endpoint without a trailing slash, then the encoded wallet address)
    has no bearing on what the component does next and is not recorded. *)
Definition fetchOnce (s : State) : State :=
  if negb (given (fetchApiUrl props)) || negb (given (walletAddress props)) then
    setStatusMessage "No HTTP endpoint configured." s
  else
    let s1 := setStatusMessage "Fetching mind vector via HTTP…" s in
    let (f, s2) := freshHandle s1 in
    setInflight (inflight s2 ++ [f])%list s2.

(** [(v) => ({ name: v.name || v.label || "dim", value: Number(v.value ?? 0) })] *)
Definition dimensionOfEntry (v : any) : option any :=
  n <- get v "name" ;;
  l <- (if ToBoolean n then Some n else get v "label") ;;
  x <- get v "value" ;;
  y <- Number (nullish x (VNum zero)) ;;
  Some (VObj [("name", or_else (or_else n l) (VStr "dim")); ("value", VNum y)]).

(** The vector built from the response body in [fetchOnce]. *)
Definition vectorOfBody (data : any) (now : string) : option MindVector :=
  ts <- get data "timestamp" ;;
  ds <- get data "dimensions" ;;
  dims <- (if ToBoolean ds then Some ds
           else
             vec <- get data "vector" ;;
             if ToBoolean vec then
               match vec with
               | VArr l => es <- mapM dimensionOfEntry l ;; Some (VArr es)
               | _ => None
               end
             else Some (VArr [])) ;;
  vs <- get data "visualState" ;;
  em <- get data "emoji" ;;
  Some {| timestamp := or_else ts (VStr now); dimensions := dims;
          visualState := vs; emoji := em |}.

Definition httpError (s : State) : State := setStatusMessage "HTTP error" s.

(** [fetchOnce()] from its first [await] on. *)
Definition onFetchSettled (r : FetchResult) (now : string) (s : State) : State :=
  match r with
  | Rejected => httpError s
  | Response status body =>
      if negb ((200 <=? status)%nat && (status <=? 299)%nat) then
        setStatusMessage
          ("HTTP fetch failed: " ++ NumberToString (Finite (inject_Z (Z.of_nat status)))) s
      else
        match body with
        | None => httpError s
        | Some data =>
            match vectorOfBody data now with
            | None => httpError s
            | Some vector => accept vector "HTTP OK" httpError s
            end
        end
  end.

(** The body of the mount effect. *)
Definition mount (s : State) : State :=
  let s0 := setMountedRef true s in
  if given (websocketUrl props) && given (walletAddress props) then
    connectWebSocket s0
  else if given (fetchApiUrl props) && given (walletAddress props) then
    let s1 := fetchOnce s0 in
    let (id, s2) := freshHandle s1 in
    let period := match pollingIntervalMs props with
                  | Some ms => ms
                  | None => DEFAULT_POLLING_INTERVAL
                  end in
    setPollingRef (Some id) (setIntervals (intervals s2 ++ [(id, period)])%list s2)
  else
    setStatusMessage
      "No data source configured (websocketUrl or fetchApiUrl required)." s0.

(** Modelled from the spec: the clean-up function that the mount effect
    returns lies beyond the end of the source as available.  Following the
    specification of [dispose()], it clears the liveness flag that the
    handlers check, closes the push connection, cancels the poll timer and
    cancels the pending reconnection timers.  The current vector, the
    history and the status are React state, which the clean-up leaves to
    React: it is dropped with the component on unmount and kept when the
    effect runs again. *)
Definition dispose (s : State) : State :=
  let s1 := setMountedRef false s in
  let s2 := match wsRef s1 with
            | Some ws => close ws s1
            | None => s1
            end in
  let s3 := match pollingRef s2 with
            | Some id =>
                setPollingRef None
                  (setIntervals (filter (fun p => negb (fst p =? id)%nat) (intervals s2)) s2)
            | None => s2
            end in
  setTimeouts [] s3.

(** Delivery of one host event to the listeners registered for it.  The host
    keeps to the WebSocket life cycle: a socket opens once, out of
    CONNECTING; messages are delivered only while it is OPEN; [close] fires
    once.  A timer fires only while it is pending, a request settles only
    while it is in flight. *)
Definition step (s : State) (e : Event) : State :=
  match e with
  | WsOpen ws =>
      match readyState ws s with
      | Some CONNECTING => onOpen ws (setReadyState ws OPEN s)
      | _ => s
      end
  | WsMessage ws parsed now =>
      match readyState ws s with
      | Some OPEN => onMessage ws parsed now s
      | _ => s
      end
  | WsError ws =>
      match readyState ws s with
      | Some _ => onError ws s
      | None => s
      end
  | WsClose ws =>
      match readyState ws s with
      | Some CLOSED | None => s
      | Some _ => onClose ws (setReadyState ws CLOSED s)
      end
  | TimeoutFired t =>
      if existsb (Nat.eqb t) (timeouts s) then
        onReconnectTimer (setTimeouts (removeHandle t (timeouts s)) s)
      else s
  | IntervalFired t =>
      if existsb (fun p => (fst p =? t)%nat) (intervals s) then fetchOnce s else s
  | FetchSettled f r now =>
      if existsb (Nat.eqb f) (inflight s) then
        onFetchSettled r now (setInflight (removeHandle f (inflight s)) s)
      else s
  end.

(** The life of the component: mounts, clean-ups and host events. *)
Inductive Action : Type :=
| Mount
| Dispose
| Deliver (e : Event).

Definition act (s : State) (a : Action) : State :=
  match a with
  | Mount => mount s
  | Dispose => dispose s
  | Deliver e => step s e
  end.

Definition run (s : State) (es : list Event) : State := fold_left step es s.

Definition exec (actions : list Action) : State := fold_left act actions initialState.

End Component.

(** Messages have only been sent on sockets that have opened. *)
Definition sentOnOpened (s : State) : Prop :=
  forall ws m, In (ws, m) (sent s) ->
               exists r, readyState ws s = Some r /\ r <> CONNECTING.

(** ** The request URL *)

(** [s.replace(/\/$/, '')]: without the multiline flag [$] is the end
    of the string, so one slash is dropped when it is the last character. *)
Fixpoint stripTrailingSlash (s : string) : string :=
  match s with
  | EmptyString => EmptyString
  | String c EmptyString => if (c =? "/")%char then EmptyString else s
  | String c s' => String c (stripTrailingSlash s')
  end.

(** The characters [encodeURIComponent] leaves alone: letters, digits and
    [- _ . ! ~ * ' ( )]. *)
Definition unreserved (c : ascii) : bool :=
  let n := nat_of_ascii c in
  ((65 <=? n) && (n <=? 90) || (97 <=? n) && (n <=? 122)
   || (48 <=? n) && (n <=? 57))%nat
  || existsb (Ascii.eqb c)
       ["-"; "_"; "."; "!"; "~"; "*"; "039"; "("; ")"]%char.

Definition upperHexDigit (n : nat) : ascii :=
  if (n <? 10)%nat then ascii_of_nat (48 + n) else ascii_of_nat (55 + n).

Definition percentEncode (c : ascii) : string :=
  let n := nat_of_ascii c in
  String "%" (String (upperHexDigit (n / 16)) (String (upperHexDigit (n mod 16)) EmptyString)).

(** [encodeURIComponent], on the UTF-8 bytes of a well-formed string: every
    byte that is not an unreserved character becomes [%XX]. *)
Fixpoint encodeURIComponent (s : string) : string :=
  match s with
  | EmptyString => EmptyString
  | String c s' =>
      (if unreserved c then String c EmptyString else percentEncode c)
        ++ encodeURIComponent s'
  end.

(** The URL [fetchOnce] requests:
    [`${fetchApiUrl.replace(/\/$/, '')}/${encodeURIComponent(walletAddress)}`]. *)
Definition requestUrl (endpoint wallet : string) : string :=
  stripTrailingSlash endpoint ++ "/" ++ encodeURIComponent wallet.

Fixpoint endsWithSlash (s : string) : bool :=
  match s with
  | EmptyString => false
  | String c EmptyString => (c =? "/")%char
  | String _ s' => endsWithSlash s'
  end.

Definition isArray (v : any) : bool :=
  match v with VArr _ => true | _ => false end.

(** ** Counting connections *)

Definition isClosed (r : ReadyState) : bool :=
  match r with CLOSED => true | _ => false end.

(** The sockets that have not been closed yet. *)
Definition liveSockets (l : list (nat * ReadyState)) : nat :=
  List.length (filter (fun p => negb (isClosed (snd p))) l).

(** Handles are fresh, no two sockets share one, and live sockets and
    pending reconnection timers together number at most one. *)
Definition oneChannel (s : State) : Prop :=
  (forall k, In k (map fst (sockets s)) -> k < nextHandle s)
  /\ NoDup (map fst (sockets s))
  /\ liveSockets (sockets s) + List.length (timeouts s) <= 1.

(** Every socket that is not closed is the one [wsRef] holds. *)
Definition onlyCurrentLive (s : State) : Prop :=
  forall ws r, In (ws, r) (sockets s) -> isClosed r = false -> wsRef s = Some ws.

(** ** Sample inputs *)

(** The update [{"dimensions":[{"name":"a","value":1e999},{"name":"a","value":1}]}]:
    two axes of the same name, the first of which parses to [Infinity]. *)
Definition twiceA : any :=
  VObj [("dimensions",
         VArr [dim "a" (VNum (Infinity false)); dim "a" (VNum (Finite 1))])].


Definition sampleNow : string := "2024-01-01T00:00:00.000Z".

(** A subscriber that returns normally. *)
Definition quietSubscriber (vector : MindVector) : bool := true.

(** Only the HTTP endpoint is configured. *)
Definition pollProps : Props :=
  {| walletAddress := Some "wallet1"; websocketUrl := None;
     fetchApiUrl := Some "https://x/mv"; pollingIntervalMs := None;
     onUpdate := Some quietSubscriber |}.

(** Both the WebSocket and the HTTP endpoint are configured. *)
Definition pushProps : Props :=
  {| walletAddress := Some "wallet1"; websocketUrl := Some "wss://x/ws";
     fetchApiUrl := Some "https://x/mv"; pollingIntervalMs := None;
     onUpdate := Some quietSubscriber |}.

(** The push update around a [data] payload. *)
Definition updateOf (data : any) : any :=
  VObj [("type", VStr "mindVectorUpdate"); ("data", data)].

(** The poll body [{"vector":[1,2]}]. *)
Definition legacyBody : any :=
  VObj [("vector", VArr [VNum (Finite 1); VNum (Finite 2)])].

(** An object entry of a legacy [vector] array: [{"name":s,"value":x}] or
    [{"label":s,"value":x}]. *)
Record LegacyEntry : Type := {
  byLabel : bool;
  entryName : string;
  entryValue : number
}.

Definition legacyEntry (e : LegacyEntry) : any :=
  VObj [(if byLabel e then "label" else "name", VStr (entryName e));
        ("value", VNum (entryValue e))].

(** The dimension lists [[{"value":1},{"name":"x","value":2}]] and
    [[{"name":"a","value":1},{"value":2}]]: one entry has no name, the
    first or the last. *)
Definition namelessFirst : any :=
  VArr [VObj [("value", VNum (Finite 1))]; dim "x" (VNum (Finite 2))].

Definition namelessLast : any :=
  VArr [dim "a" (VNum (Finite 1)); VObj [("value", VNum (Finite 2))]].

(** The handshake as the specification words it, for the subject [id]:
    [{"type":"subscribe","topic":"stateVector","subject":"<id>"}]. *)
Definition specHandshake (id : string) : string :=
  "{" ++ inQuotes "type" ++ ":" ++ inQuotes "subscribe" ++ ","
      ++ inQuotes "topic" ++ ":" ++ inQuotes "stateVector" ++ ","
      ++ inQuotes "subject" ++ ":" ++ quoteJSON id ++ "}".

(** Neither endpoint is configured. *)
Definition noSourceProps : Props :=
  {| walletAddress := Some "wallet1"; websocketUrl := None;
     fetchApiUrl := None; pollingIntervalMs := None; onUpdate := None |}.

(** The WebSocket URL is one the constructor rejects. *)
Definition badUrlProps : Props :=
  {| walletAddress := Some "wallet1"; websocketUrl := Some "http://x/ws";
     fetchApiUrl := Some "https://x/mv"; pollingIntervalMs := None;
     onUpdate := None |}.

(** A subscriber that throws. *)
Definition throwingSubscriber (vector : MindVector) : bool := false.

Definition throwingPushProps : Props :=
  {| walletAddress := Some "wallet1"; websocketUrl := Some "wss://x/ws";
     fetchApiUrl := None; pollingIntervalMs := None;
     onUpdate := Some throwingSubscriber |}.

Definition throwingPollProps : Props :=
  {| walletAddress := Some "wallet1"; websocketUrl := None;
     fetchApiUrl := Some "https://x/mv"; pollingIntervalMs := Some 1000%N;
     onUpdate := Some throwingSubscriber |}.
(** * Properties *)

(** ** The normaliser *)

Section NormalizerFacts.
Context {H : Host}.
Hypothesis localeCompare_flip :
  forall s t, localeCompare t s = CompOpp (localeCompare s t).

Lemma compareByName_keys a b c :
  compareByName a b = Some c ->
  exists s t, keyOf a = Some s /\ keyOf b = Some t /\ c = localeCompare s t.
Proof.
  unfold compareByName, keyOf.
  destruct (get a "name") as [[| | | |s| |]|]; try discriminate.
  destruct (get b "name") as [bn|]; try discriminate.
  destruct (ToString bn) as [t|] eqn:Et; try discriminate.
  intros [= <-]. exists s, t. cbn. auto.
Qed.

Lemma insertByName_head x l r :
  insertByName x l = Some r ->
  exists r', r = x :: r' \/ (exists y ys, l = y :: ys /\ r = y :: r' /\ compareByName x y = Some Lt).
Proof.
  destruct l as [|y ys]; cbn.
  - intros [= <-]. exists []. now left.
  - destruct (compareByName x y) as [c|] eqn:Ec; try discriminate.
    destruct c.
    + intros [= <-]. exists (y :: ys). now left.
    + destruct (insertByName x ys) as [r'|]; try discriminate.
      intros [= <-]. exists r'. right. exists y, ys. auto.
    + intros [= <-]. exists (y :: ys). now left.
Qed.

(** The entries already inserted are kept greatest first. *)
Lemma insertByName_sorted x l r :
  insertByName x l = Some r ->
  Sorted (fun a b => rawLe b a) l -> Sorted (fun a b => rawLe b a) r.
Proof.
  revert r. induction l as [|y ys IH]; cbn; intros r Hr Hs.
  - injection Hr as <-. repeat constructor.
  - destruct (compareByName x y) as [c|] eqn:Ec; try discriminate.
    destruct (compareByName_keys _ _ Ec) as (s & t & Ks & Kt & ->).
    assert (Hge : localeCompare s t <> Lt ->
                  Sorted (fun a b => rawLe b a) (x :: y :: ys)).
    { intros Hc. constructor; trivial. constructor. exists t, s.
      repeat split; trivial. rewrite localeCompare_flip.
      destruct (localeCompare s t); cbn; congruence. }
    destruct (localeCompare s t) eqn:Ecmp.
    + injection Hr as <-. apply Hge. discriminate.
    + destruct (insertByName x ys) as [r'|] eqn:Ei; try discriminate.
      injection Hr as <-.
      apply Sorted_inv in Hs. destruct Hs as [Hs Hhd].
      constructor; [now apply IH|].
      destruct (insertByName_head _ _ Ei) as (r'' & [-> | (y' & ys' & -> & -> & _)]).
      * constructor. exists s, t. repeat split; trivial.
        rewrite Ecmp. discriminate.
      * constructor. now apply HdRel_inv in Hhd.
    + injection Hr as <-. apply Hge. discriminate.
Qed.

Lemma insertAll_sorted l acc r :
  insertAll l acc = Some r ->
  Sorted (fun a b => rawLe b a) acc -> Sorted (fun a b => rawLe b a) r.
Proof.
  revert acc. induction l as [|x xs IH]; cbn; intros acc Hr Hs.
  - now injection Hr as <-.
  - destruct (insertByName x acc) as [s|] eqn:Ei; try discriminate.
    eapply IH; eauto. eapply insertByName_sorted; eauto.
Qed.

Lemma Sorted_snoc {A : Type} (R : A -> A -> Prop) l a :
  Sorted R l -> (forall l' y, l = (l' ++ [y])%list -> R y a) ->
  Sorted R (l ++ [a])%list.
Proof.
  induction l as [|x l IH]; intros Hs Hlast; cbn.
  - repeat constructor.
  - apply Sorted_inv in Hs. destruct Hs as [Hs Hhd]. constructor.
    + apply IH; trivial. intros l' y ->. now apply (Hlast (x :: l') y).
    + destruct l as [|z l]; cbn.
      * constructor. now apply (Hlast [] x).
      * constructor. now apply HdRel_inv in Hhd.
Qed.

Lemma Sorted_rev {A : Type} (R : A -> A -> Prop) l :
  Sorted (fun a b => R b a) l -> Sorted R (rev l).
Proof.
  induction l as [|a l IH]; intros Hs; cbn; [constructor|].
  apply Sorted_inv in Hs. destruct Hs as [Hs Hhd].
  apply Sorted_snoc; [now apply IH|].
  intros l' y E.
  assert (El : l = y :: rev l').
  { rewrite <- (rev_involutive l), E, rev_app_distr. reflexivity. }
  subst l. now apply HdRel_inv in Hhd.
Qed.

Lemma sortByName_sorted l r : sortByName l = Some r -> Sorted rawLe r.
Proof.
  unfold sortByName.
  destruct (insertAll l []) as [s|] eqn:Es; try discriminate.
  intros [= <-]. apply Sorted_rev.
  eapply insertAll_sorted; [eassumption | constructor].
Qed.

Lemma insertByName_perm x l r :
  insertByName x l = Some r -> Permutation (x :: l) r.
Proof.
  revert r. induction l as [|y ys IH]; cbn; intros r Hr.
  - injection Hr as <-. reflexivity.
  - destruct (compareByName x y) as [[| |]|]; try discriminate;
      try (injection Hr as <-; reflexivity).
    destruct (insertByName x ys) as [r'|]; try discriminate.
    injection Hr as <-. rewrite perm_swap. constructor. now apply IH.
Qed.

Lemma insertAll_perm l acc r :
  insertAll l acc = Some r -> Permutation (l ++ acc)%list r.
Proof.
  revert acc. induction l as [|x xs IH]; cbn; intros acc Hr.
  - now injection Hr as <-.
  - destruct (insertByName x acc) as [s|] eqn:Ei; try discriminate.
    rewrite <- (IH _ Hr). rewrite <- (insertByName_perm _ _ Ei).
    apply Permutation_middle.
Qed.

Lemma sortByName_perm l r : sortByName l = Some r -> Permutation l r.
Proof.
  unfold sortByName.
  destruct (insertAll l []) as [s|] eqn:Es; try discriminate.
  intros [= <-]. rewrite <- Permutation_rev.
  rewrite <- (insertAll_perm _ _ Es). now rewrite app_nil_r.
Qed.

Lemma mapM_map {A B : Type} (f : A -> option B) l r :
  mapM f l = Some r -> map f l = map Some r.
Proof.
  revert r. induction l as [|a l IH]; cbn; intros r Hr.
  - now injection Hr as <-.
  - destruct (f a) as [b|]; try discriminate.
    destruct (mapM f l) as [bs|]; try discriminate.
    injection Hr as <-. cbn. f_equal. now apply IH.
Qed.

Lemma toRadarDatum_key d p :
  toRadarDatum d = Some p -> keyOf d = ToString (subject p).
Proof.
  unfold toRadarDatum, keyOf.
  destruct (get d "name") as [n|]; try discriminate.
  destruct (get d "value") as [v|]; try discriminate.
  destruct (Number v) as [x|]; try discriminate.
  now intros [= <-].
Qed.

Lemma numberOrZero_not_NaN n : isNaN (numberOrZero n) = false.
Proof. unfold numberOrZero. now destruct n as [| |q]; cbn; try destruct (negb _). Qed.

Lemma toRadarDatum_not_NaN d p :
  toRadarDatum d = Some p -> isNaN (value p) = false.
Proof.
  unfold toRadarDatum.
  destruct (get d "name") as [n|]; try discriminate.
  destruct (get d "value") as [v|]; try discriminate.
  destruct (Number v) as [x|]; try discriminate.
  intros [= <-]. apply numberOrZero_not_NaN.
Qed.

Lemma toRadarDatum_value d p :
  toRadarDatum d = Some p ->
  exists x, get d "name" = Some (subject p)
            /\ Number (get_opt d "value") = Some x
            /\ value p = if truthyNumber x then x else zero.
Proof.
  unfold toRadarDatum, get_opt.
  destruct (get d "name") as [n|]; try discriminate.
  destruct (get d "value") as [v|]; try discriminate.
  destruct (Number v) as [x|] eqn:Ex; try discriminate.
  intros [= <-]. exists x. auto.
Qed.

Lemma mapM_sorted l r :
  mapM toRadarDatum l = Some r -> Sorted rawLe l -> Sorted nameLe r.
Proof.
  revert r. induction l as [|d l IH]; cbn; intros r Hr Hs.
  - injection Hr as <-. constructor.
  - destruct (toRadarDatum d) as [p|] eqn:Ed; try discriminate.
    destruct (mapM toRadarDatum l) as [ps|] eqn:El; try discriminate.
    injection Hr as <-. apply Sorted_inv in Hs. destruct Hs as [Hs Hhd].
    constructor; [now apply IH|].
    destruct l as [|d' l']; cbn in El.
    + injection El as <-. constructor.
    + destruct (toRadarDatum d') as [p'|] eqn:Ed'; try discriminate.
      destruct (mapM toRadarDatum l') as [ps'|]; try discriminate.
      injection El as <-. constructor.
      apply HdRel_inv in Hhd. destruct Hhd as (s & t & Ks & Kt & Hc).
      exists s, t. rewrite <- (toRadarDatum_key _ Ed), <- (toRadarDatum_key _ Ed'). auto.
Qed.

Lemma mapM_Forall {A B : Type} (f : A -> option B) (P : B -> Prop) l r :
  (forall a b, f a = Some b -> P b) -> mapM f l = Some r -> Forall P r.
Proof.
  intros HP. revert r. induction l as [|a l IH]; cbn; intros r Hr.
  - injection Hr as <-. constructor.
  - destruct (f a) as [b|] eqn:Ea; try discriminate.
    destruct (mapM f l) as [bs|]; try discriminate.
    injection Hr as <-. constructor; eauto.
Qed.

End NormalizerFacts.

(** *** What the sort accepts

    The comparator reads [localeCompare] off the name of its first argument,
    which therefore has to be a string, and converts the name of its second
    argument.  Called with the later entry first, it is handed every entry
    but the first one as its first argument, so a list of two or more entries
    is sorted exactly when the name of the first entry converts to a string
    and the names of all others are strings. *)

Section SortAccepts.
Context {H : Host}.

Lemma compareByName_returns a b :
  (exists c, compareByName a b = Some c) <-> hasStringName a /\ hasKey b.
Proof.
  unfold compareByName, hasStringName, hasKey, keyOf. split.
  - intros (c & Hc).
    destruct (get a "name") as [[| | | |s| |]|]; try discriminate.
    destruct (get b "name") as [bn|]; try discriminate.
    destruct (ToString bn) as [t|]; try discriminate. eauto.
  - intros ((s & ->) & (t & Ht)).
    destruct (get b "name") as [bn|]; try discriminate.
    cbn in Ht |- *. rewrite Ht. eauto.
Qed.

Lemma hasStringName_hasKey d : hasStringName d -> hasKey d.
Proof. intros (s & Hs). exists s. unfold keyOf. now rewrite Hs. Qed.

Lemma insertByName_returns x acc :
  hasStringName x -> Forall hasKey acc -> exists r, insertByName x acc = Some r.
Proof.
  intros Hx Hacc. induction Hacc as [|y ys Hy Hys IH]; [cbn; eauto|].
  cbn [insertByName].
  destruct (proj2 (compareByName_returns x y) (conj Hx Hy)) as (c & ->).
  destruct IH as (r & ->). destruct c; eauto.
Qed.

Lemma insertAll_returns l : forall acc,
  Forall hasStringName l -> Forall hasKey acc -> exists r, insertAll l acc = Some r.
Proof.
  induction l as [|x xs IH]; intros acc Hl Hacc; [cbn; eauto|].
  apply Forall_cons_iff in Hl. destruct Hl as [Hx Hxs].
  cbn [insertAll].
  destruct (insertByName_returns Hx Hacc) as (s & Hs). rewrite Hs.
  apply IH; trivial.
  apply (Permutation_Forall (insertByName_perm _ _ Hs)).
  constructor; trivial. now apply hasStringName_hasKey.
Qed.

Lemma insertByName_nonempty x acc r : insertByName x acc = Some r -> r <> [].
Proof.
  destruct acc as [|y ys]; cbn; [now intros [= <-]|].
  destruct (compareByName x y) as [[| |]|]; try discriminate;
    try (now intros [= <-]).
  destruct (insertByName x ys); try discriminate. now intros [= <-].
Qed.

Lemma insertAll_needs l : forall y ys r,
  insertAll l (y :: ys) = Some r ->
  Forall hasStringName l /\ (l <> [] -> hasKey y).
Proof.
  induction l as [|x xs IH]; intros y ys r Hr; [split; [constructor | congruence]|].
  cbn [insertAll] in Hr.
  destruct (insertByName x (y :: ys)) as [s|] eqn:Es; try discriminate.
  assert (Hxy : hasStringName x /\ hasKey y).
  { apply compareByName_returns. cbn [insertByName] in Es.
    destruct (compareByName x y) as [c|]; [eauto | discriminate]. }
  destruct s as [|z zs]; [now elim (insertByName_nonempty _ _ Es)|].
  destruct (IH z zs r Hr) as [Hxs _].
  split; [constructor; tauto | tauto].
Qed.

Lemma sortByName_returns x xs :
  xs <> [] ->
  (exists r, sortByName (x :: xs) = Some r) <-> hasKey x /\ Forall hasStringName xs.
Proof.
  intros Hxs. unfold sortByName. cbn [insertAll insertByName]. split.
  - intros (r & Hr).
    destruct (insertAll xs [x]) as [s|] eqn:Es; try discriminate.
    destruct (@insertAll_needs xs x [] s Es) as [Hs Hx]. auto.
  - intros [Hx Hs].
    destruct (@insertAll_returns xs [x] Hs) as (s & ->); eauto.
Qed.

End SortAccepts.

(** The comparator is called with the later entry first: the list with the
    nameless entry first is normalised (the missing name reads as
    [undefined]), the list with the nameless entry last makes the comparator
    throw. *)
Lemma sort_passes_later_entry_first :
  normalizeToRadarData (vectorOf namelessFirst)
  = Some [ {| subject := VUndefined; value := Finite 1 |};
           {| subject := VStr "x"; value := Finite 2 |} ]
  /\ normalizeToRadarData (vectorOf namelessLast) = None.
Proof. split; reflexivity. Qed.

(** C1, as stated, fails: the vector built from the update [twiceA] is
    normalised to two axes that are both named [a], one of them infinite.
    Nothing removes duplicates, and [Number(v) || 0] lets infinities
    through. *)
Lemma normalize_keeps_duplicates_and_infinities :
  let r := [ {| subject := VStr "a"; value := Infinity false |};
             {| subject := VStr "a"; value := Finite 1 |} ] in
  normalizeToRadarData (vectorOfUpdate twiceA "2024-01-01T00:00:00.000Z") = Some r
  /\ ~ NoDup (map subject r)
  /\ ~ Forall (fun p => isFinite (value p) = true) r.
Proof.
  cbn zeta. split; [reflexivity|]. split.
  - intros Hn. inversion Hn as [|? ? Hin _]. apply Hin. now left.
  - intros Hf. inversion Hf as [|? ? Hinf _]. discriminate Hinf.
Qed.

(** C1 (amended): whenever [normalizeToRadarData] returns, its axes are in
    ascending order of name under [localeCompare], they are exactly the
    images of the input entries (nothing dropped, duplicates kept), and no
    value is NaN: the value of an axis is [Number(value) || 0] of its
    entry, so a value whose conversion is NaN or zero is [0] and an infinite
    one stays infinite. *)
Theorem normalize_sorted_complete_not_NaN {H : Host}
    (flip : forall s t, localeCompare t s = CompOpp (localeCompare s t))
    (vector : MindVector) (r : list RadarDatum) :
  normalizeToRadarData vector = Some r ->
  Sorted nameLe r
  /\ Forall (fun p => isNaN (value p) = false) r
  /\ exists l, dimensions vector = VArr l
               /\ Permutation (map toRadarDatum l) (map Some r)
               /\ forall p, In p r ->
                    exists d x,
                      In d l
                      /\ get d "name" = Some (subject p)
                      /\ Number (get_opt d "value") = Some x
                      /\ value p = if truthyNumber x then x else zero.
Proof.
  unfold normalizeToRadarData.
  destruct (dimensions vector) as [| | | | |l|]; try discriminate.
  destruct (sortByName l) as [s|] eqn:Es; try discriminate.
  intros Hr.
  assert (Hp : Permutation (map toRadarDatum l) (map Some r)).
  { rewrite <- (mapM_map _ _ Hr). apply Permutation_map. now apply sortByName_perm. }
  split; [|split].
  - eapply mapM_sorted; eauto. eapply sortByName_sorted; eauto.
  - eapply mapM_Forall; [|exact Hr]. apply toRadarDatum_not_NaN.
  - exists l. split; trivial. split; trivial.
    intros p Hin.
    assert (Hs : In (Some p) (map toRadarDatum l)).
    { apply (Permutation_in _ (Permutation_sym Hp)). now apply in_map. }
    apply in_map_iff in Hs. destruct Hs as (d & Hd & Hdl).
    destruct (toRadarDatum_value _ Hd) as (x & Hn & Hx & Hv).
    exists d, x. auto.
Qed.

Lemma normalize_sorted_complete_not_NaN_witness :
  let l := [dim "b" (VNum (Finite 1)); dim "a" (VStr "x")] in
  let r := [ {| subject := VStr "a"; value := Finite 0 |};
             {| subject := VStr "b"; value := Finite 1 |} ] in
  normalizeToRadarData (vectorOf (VArr l)) = Some r
  /\ Sorted nameLe r
  /\ Forall (fun p => isNaN (value p) = false) r
  /\ Permutation (map toRadarDatum l) (map Some r).
Proof.
  cbn zeta.
  assert (Hr : normalizeToRadarData
                 (vectorOf (VArr [dim "b" (VNum (Finite 1)); dim "a" (VStr "x")]))
               = Some [ {| subject := VStr "a"; value := Finite 0 |};
                        {| subject := VStr "b"; value := Finite 1 |} ])
    by reflexivity.
  destruct (@normalize_sorted_complete_not_NaN exampleHost
              (fun s t => String.compare_antisym t s) _ _ Hr)
    as (Hsorted & Hvalues & l & Hl & Hperm & _).
  injection Hl as <-. auto.
Defined.

(** ** The history buffer *)

Lemma pushHistory_length {A : Type} (v : A) h : List.length (pushHistory v h) <= 50.
Proof. unfold pushHistory. apply firstn_le_length. Qed.

Lemma pushHistory_head {A : Type} (v : A) h : hd_error (pushHistory v h) = Some v.
Proof. reflexivity. Qed.

Lemma pushHistory_full {A : Type} (v : A) h :
  List.length h = 50 -> pushHistory v h = v :: removelast h.
Proof.
  intros Hl. unfold pushHistory.
  change (firstn 50 (v :: h)) with (v :: firstn 49 h). f_equal.
  rewrite (removelast_firstn_len h), Hl. reflexivity.
Qed.

Lemma firstn_app_firstn {A : Type} n (a b : list A) :
  firstn n (a ++ firstn n b) = firstn n (a ++ b).
Proof.
  rewrite !firstn_app, firstn_firstn. do 2 f_equal. lia.
Qed.

Lemma pushAll_firstn {A : Type} (vs h : list A) :
  List.length h <= 50 -> pushAll vs h = firstn 50 (rev vs ++ h).
Proof.
  revert h. induction vs as [|v vs IH]; intros h Hh.
  - cbn [pushAll fold_left rev app]. symmetry. now apply firstn_all2.
  - change (pushAll (v :: vs) h) with (pushAll vs (pushHistory v h)).
    rewrite IH by apply pushHistory_length.
    unfold pushHistory. rewrite firstn_app_firstn.
    cbn [rev]. now rewrite <- app_assoc.
Qed.

(** ** The component: what each handler touches *)

Lemma lookupSocket_retag ws ws' r l :
  lookupSocket ws (map (retag ws' r) l)
  = if (ws =? ws')%nat then option_map (fun _ => r) (lookupSocket ws l)
    else lookupSocket ws l.
Proof.
  unfold lookupSocket, retag.
  induction l as [|[k v] l IH]; simpl.
  - now destruct (ws =? ws')%nat.
  - destruct (Nat.eqb_spec k ws') as [-> | Hk]; simpl.
    + rewrite (Nat.eqb_sym ws' ws).
      destruct (Nat.eqb_spec ws ws') as [-> | Hw]; [reflexivity|].
      rewrite IH. now destruct (Nat.eqb_spec ws ws').
    + destruct (Nat.eqb_spec k ws) as [-> | Hw]; simpl.
      * now destruct (Nat.eqb_spec ws ws').
      * exact IH.
Qed.

Lemma lookupSocket_app ws n l :
  lookupSocket ws (l ++ [(n, CONNECTING)])
  = match lookupSocket ws l with
    | Some r => Some r
    | None => if (n =? ws)%nat then Some CONNECTING else None
    end.
Proof.
  unfold lookupSocket.
  induction l as [|[k v] l IH]; simpl.
  - now destruct (n =? ws)%nat.
  - now destruct (k =? ws)%nat.
Qed.

(** Case analysis on every test a handler makes. *)
Ltac split_tests :=
  repeat (cbn;
          match goal with
          | |- context [match ?x with _ => _ end] =>
              lazymatch x with
              | match _ with _ => _ end => fail
              | _ => destruct x eqn:?
              end
          end).

#[local] Arguments subscribeMsg : simpl never.
#[local] Arguments pongMsg : simpl never.
#[local] Arguments readyState : simpl never.
#[local] Arguments retag : simpl never.
#[local] Arguments lookupSocket : simpl never.
#[local] Arguments removeHandle : simpl never.
#[local] Arguments given : simpl never.
#[local] Arguments ToBoolean : simpl never.
#[local] Arguments get_opt : simpl never.
#[local] Arguments vectorOfBody : simpl never.
#[local] Arguments vectorOfUpdate : simpl never.
#[local] Arguments String.eqb : simpl never.
#[local] Arguments String.append : simpl never.
#[local] Arguments Nat.leb : simpl never.
#[local] Arguments map : simpl never.
#[local] Arguments filter : simpl never.
#[local] Arguments app : simpl never.

Ltac handlers :=
  unfold act, step, mount, dispose, onOpen, onMessage, onClose, onError,
    onReconnectTimer, connectWebSocket, fetchOnce, onFetchSettled, accept,
    httpError, send, close, setReadyState, freshHandle.

Section ComponentFacts.
Context {H : Host}.
Variable props : Props.

(** Every action leaves the vector state alone or stores one new vector, as
    [current] and at the front of the history. *)
Lemma act_updates s a :
  (history (act props s a) = history s /\ current (act props s a) = current s)
  \/ exists vector,
       history (act props s a) = pushHistory vector (history s)
       /\ current (act props s a) = Some vector.
Proof.
  destruct a as [| |[]]; handlers; split_tests; cbn; eauto.
Qed.

(** Once the liveness flag is cleared, no host event stores a vector, calls
    the subscriber, or sets the flag again. *)
Lemma step_unmounted s e :
  mountedRef s = false ->
  mountedRef (step props s e) = false
  /\ notified (step props s e) = notified s
  /\ current (step props s e) = current s
  /\ history (step props s e) = history s.
Proof.
  intros Hm. destruct e; handlers; split_tests; cbn in *; auto;
    rewrite Hm in *; discriminate.
Qed.

Lemma run_unmounted s es :
  mountedRef s = false ->
  mountedRef (run props s es) = false
  /\ notified (run props s es) = notified s
  /\ current (run props s es) = current s
  /\ history (run props s es) = history s.
Proof.
  revert s. induction es as [|e es IH]; intros s Hm; [now cbn|].
  change (run props s (e :: es)) with (run props (step props s e) es).
  destruct (step_unmounted s e Hm) as (Hm' & En & Ec & Eh).
  destruct (IH _ Hm') as (? & En' & Ec' & Eh').
  repeat split; congruence.
Qed.

Lemma dispose_keeps s :
  mountedRef (dispose s) = false
  /\ notified (dispose s) = notified s
  /\ current (dispose s) = current s
  /\ history (dispose s) = history s.
Proof. handlers; split_tests; cbn; auto. Qed.

(** An update arriving on an open connection of a mounted component. *)
Lemma push_update_accepted s ws data now :
  readyState ws s = Some OPEN ->
  mountedRef s = true ->
  ToBoolean data = true ->
  let vector := vectorOfUpdate data now in
  let s' := step props s (WsMessage ws (Some (updateOf data)) now) in
  current s' = Some vector
  /\ history s' = pushHistory vector (history s)
  /\ (onUpdate props <> None -> notified s' = (notified s ++ [vector])%list).
Proof.
  intros Hopen Hm Hdata. cbn zeta.
  unfold step, onMessage. rewrite Hopen.
  change (get_opt (updateOf data) "type") with (VStr "mindVectorUpdate").
  change (get_opt (updateOf data) "data") with data.
  rewrite Hdata.
  change ("mindVectorUpdate" =? "mindVectorUpdate") with true. cbv beta iota.
  unfold accept. rewrite Hm. cbn [negb andb].
  destruct (onUpdate props) as [f|]; [destruct (f _)|]; cbn; repeat split;
    trivial; congruence.
Qed.

(** A pending request settling with a 2xx response whose body yields a
    vector, in a mounted component. *)
Lemma poll_body_accepted s f status data now vector :
  existsb (Nat.eqb f) (inflight s) = true ->
  (200 <=? status)%nat && (status <=? 299)%nat = true ->
  vectorOfBody data now = Some vector ->
  mountedRef s = true ->
  let s' := step props s (FetchSettled f (Response status (Some data)) now) in
  current s' = Some vector
  /\ history s' = pushHistory vector (history s)
  /\ (onUpdate props <> None -> notified s' = (notified s ++ [vector])%list).
Proof.
  intros Hf Hok Hv Hm. cbn zeta.
  unfold step. rewrite Hf. unfold onFetchSettled. rewrite Hok, Hv. cbn [negb].
  unfold accept.
  change (mountedRef (setInflight (removeHandle f (inflight s)) s)) with (mountedRef s).
  rewrite Hm. cbn [negb].
  destruct (onUpdate props) as [g|]; [destruct (g _)|]; cbn; repeat split;
    trivial; congruence.
Qed.

Lemma exec_invariant (P : State -> Prop) :
  P initialState ->
  (forall s a, P s -> P (act props s a)) ->
  forall actions, P (exec props actions).
Proof.
  intros Hinit Hstep actions. unfold exec.
  generalize dependent initialState.
  induction actions as [|a actions IH]; intros s Hs; cbn [fold_left]; auto.
Qed.

Lemma exec_history_bounded actions :
  List.length (history (exec props actions)) <= 50.
Proof.
  apply exec_invariant with (P := fun s => List.length (history s) <= 50).
  - cbn. lia.
  - intros s a Hs. destruct (act_updates s a) as [[-> _] | (v & -> & _)]; trivial.
    apply pushHistory_length.
Qed.

Lemma exec_current_head actions :
  hd_error (history (exec props actions)) = current (exec props actions).
Proof.
  apply exec_invariant with (P := fun s => hd_error (history s) = current s).
  - reflexivity.
  - intros s a Hs. destruct (act_updates s a) as [[-> ->] | (v & -> & ->)]; trivial.
Qed.

(** With the WebSocket and the wallet configured the component never issues
    an HTTP request and never starts the polling timer. *)
Lemma push_configured_never_polls actions :
  given (websocketUrl props) && given (walletAddress props) = true ->
  inflight (exec props actions) = []
  /\ intervals (exec props actions) = []
  /\ pollingRef (exec props actions) = None.
Proof.
  intros Hcfg.
  apply exec_invariant
    with (P := fun s => inflight s = [] /\ intervals s = [] /\ pollingRef s = None).
  - now cbn.
  - intros s a (E1 & E2 & E3).
    destruct a as [| |[]]; handlers; rewrite ?E1, ?E2, ?E3; rewrite ?Hcfg;
      split_tests; cbn in *; try congruence; rewrite ?E1, ?E2, ?E3; auto.
Qed.

End ComponentFacts.

(** C2: the history never holds more than 50 vectors; every action leaves it
    as it is or pushes one vector at its front, which is what an accepted
    update and an accepted poll response do; a push onto 50 entries drops
    the last (oldest) one; and after 51 pushes the history is the
    last 50 of them, newest first, the first-pushed vector (vectors being
    distinct objects) no longer among them. *)
Theorem history_capped_newest_first {H : Host} (props : Props) :
  (forall actions, List.length (history (exec props actions)) <= 50)
  /\ (forall s a,
        history (act props s a) = history s
        \/ exists vector, history (act props s a) = pushHistory vector (history s))
  /\ (forall s ws data now,
        readyState ws s = Some OPEN -> mountedRef s = true -> ToBoolean data = true ->
        history (step props s (WsMessage ws (Some (updateOf data)) now))
        = pushHistory (vectorOfUpdate data now) (history s))
  /\ (forall s f status data now vector,
        existsb (Nat.eqb f) (inflight s) = true ->
        (200 <=? status)%nat && (status <=? 299)%nat = true ->
        vectorOfBody data now = Some vector ->
        mountedRef s = true ->
        history (step props s (FetchSettled f (Response status (Some data)) now))
        = pushHistory vector (history s))
  /\ (forall (A : Type) (vector : A) h, hd_error (pushHistory vector h) = Some vector)
  /\ (forall (A : Type) (vector : A) h,
        List.length h = 50 -> pushHistory vector h = vector :: removelast h)
  /\ (forall (A : Type) (first : A) later h,
        List.length later = 50 ->
        List.length h <= 50 ->
        pushAll (first :: later) h = rev later
        /\ (~ In first later -> ~ In first (pushAll (first :: later) h))).
Proof.
  split; [apply exec_history_bounded|].
  split.
  { intros s a. destruct (act_updates props s a) as [[E _] | (v & E & _)]; eauto. }
  split.
  { intros s ws data now Hopen Hm Hdata.
    now destruct (@push_update_accepted _ props s ws data now Hopen Hm Hdata) as (_ & E & _). }
  split.
  { intros s f status data now vector Hf Hok Hv Hm.
    now destruct (@poll_body_accepted _ props s f status data now vector Hf Hok Hv Hm) as (_ & E & _). }
  split; [intros; apply pushHistory_head|].
  split; [intros; now apply pushHistory_full|].
  intros A first later h Hl Hh.
  assert (E : pushAll (first :: later) h = rev later).
  { rewrite pushAll_firstn by trivial.
    cbn [rev]. rewrite <- app_assoc, firstn_app, length_rev, Hl.
    rewrite firstn_all2 by (rewrite length_rev; lia).
    rewrite Nat.sub_diag. apply app_nil_r. }
  split; trivial.
  intros Hnew Hin. rewrite E in Hin. apply in_rev in Hin. contradiction.
Qed.

Lemma history_capped_newest_first_witness :
  pushHistory 0 (seq 1 50) = 0 :: removelast (seq 1 50)
  /\ pushAll (0 :: seq 1 50) [] = rev (seq 1 50)
  /\ ~ In 0 (pushAll (0 :: seq 1 50) []).
Proof.
  destruct (history_capped_newest_first (H := exampleHost)
              {| walletAddress := None; websocketUrl := None; fetchApiUrl := None;
                 pollingIntervalMs := None; onUpdate := None |})
    as (_ & _ & _ & _ & _ & full & evicted).
  split; [apply full; reflexivity|].
  assert (Hlater : List.length (seq 1 50) = 50) by reflexivity.
  assert (Hempty : @List.length nat [] <= 50) by (cbn; lia).
  destruct (evicted nat 0 (seq 1 50) [] Hlater Hempty) as [E absent].
  split; [exact E|].
  apply absent. rewrite in_seq. lia.
Defined.

(** C10: in every reachable state the exposed current vector is the head of
    the history: both are absent before the first accepted update, and from
    then on [current] is the newest history entry, whichever path delivered
    it. *)
Theorem current_is_newest_history_entry {H : Host} (props : Props) :
  (forall actions,
      hd_error (history (exec props actions)) = current (exec props actions))
  /\ (forall s a,
        (history (act props s a) = history s /\ current (act props s a) = current s)
        \/ exists vector,
             current (act props s a) = Some vector
             /\ hd_error (history (act props s a)) = Some vector)
  /\ (forall s ws data now,
        readyState ws s = Some OPEN -> mountedRef s = true -> ToBoolean data = true ->
        let s' := step props s (WsMessage ws (Some (updateOf data)) now) in
        current s' = Some (vectorOfUpdate data now)
        /\ hd_error (history s') = Some (vectorOfUpdate data now))
  /\ (forall s f status data now vector,
        existsb (Nat.eqb f) (inflight s) = true ->
        (200 <=? status)%nat && (status <=? 299)%nat = true ->
        vectorOfBody data now = Some vector ->
        mountedRef s = true ->
        let s' := step props s (FetchSettled f (Response status (Some data)) now) in
        current s' = Some vector /\ hd_error (history s') = Some vector).
Proof.
  split; [apply exec_current_head|].
  split.
  { intros s a. destruct (act_updates props s a) as [E | (v & E1 & E2)]; [now left|].
    right. exists v. now rewrite E1, E2. }
  split.
  - intros s ws data now Hopen Hm Hdata. cbn zeta.
    destruct (@push_update_accepted _ props s ws data now Hopen Hm Hdata) as (Ec & Eh & _).
    now rewrite Ec, Eh.
  - intros s f status data now vector Hf Hok Hv Hm. cbn zeta.
    destruct (@poll_body_accepted _ props s f status data now vector Hf Hok Hv Hm) as (Ec & Eh & _).
    now rewrite Ec, Eh.
Qed.

Lemma current_is_newest_history_entry_witness :
  let pushed :=
    step pushProps (exec pushProps [Mount; Deliver (WsOpen 0)])
      (WsMessage 0 (Some (updateOf twiceA)) sampleNow) in
  let polled :=
    step pollProps (exec pollProps [Mount])
      (FetchSettled 0 (Response 200 (Some legacyBody)) sampleNow) in
  (current pushed = Some (vectorOfUpdate twiceA sampleNow)
   /\ hd_error (history pushed) = Some (vectorOfUpdate twiceA sampleNow))
  /\ (exists vector,
        vectorOfBody legacyBody sampleNow = Some vector
        /\ current polled = Some vector /\ hd_error (history polled) = Some vector).
Proof.
  cbn zeta.
  destruct (@current_is_newest_history_entry exampleHost pushProps)
    as (_ & _ & pushPath & _).
  destruct (@current_is_newest_history_entry exampleHost pollProps)
    as (_ & _ & _ & pollPath).
  split.
  - assert (Hopen : readyState 0 (exec pushProps [Mount; Deliver (WsOpen 0)]) = Some OPEN)
      by reflexivity.
    assert (Hm : mountedRef (exec pushProps [Mount; Deliver (WsOpen 0)]) = true)
      by reflexivity.
    assert (Hdata : ToBoolean twiceA = true) by reflexivity.
    exact (pushPath _ _ _ sampleNow Hopen Hm Hdata).
  - destruct (vectorOfBody legacyBody sampleNow) as [vector|] eqn:Hv;
      [|discriminate Hv].
    exists vector. split; [reflexivity|].
    assert (Hf : existsb (Nat.eqb 0) (inflight (exec pollProps [Mount])) = true)
      by reflexivity.
    assert (Hok : (200 <=? 200)%nat && (200 <=? 299)%nat = true) by reflexivity.
    assert (Hm : mountedRef (exec pollProps [Mount]) = true) by reflexivity.
    exact (pollPath _ _ _ _ sampleNow _ Hf Hok Hv Hm).
Defined.

(** Between a clean-up and the next mount the guard on [mountedRef] holds:
    whatever host events follow (timers firing, delayed messages, sockets
    opening or closing, requests settling), the subscriber is not called and
    the current vector and the history stay as the clean-up left them. *)
Lemma no_update_after_dispose {H : Host} (props : Props) (s : State)
    (events : list Event) :
  let s' := run props (dispose s) events in
  notified s' = notified (dispose s)
  /\ current s' = current (dispose s)
  /\ history s' = history (dispose s).
Proof.
  cbn zeta.
  destruct (dispose_keeps s) as (Hm & _).
  destruct (run_unmounted props _ events Hm) as (_ & En' & Ec' & Eh').
  auto.
Qed.

(** C4 fails on the code: the liveness flag is the one shared [mountedRef],
    and the mount effect sets it again (line 183), whatever the clean-up
    left.  A poll request is in flight when the component is disposed of;
    the component is then started again; the response to the old request now
    passes the guard of [fetchOnce]: its vector is stored as the current
    one, pushed on the history and handed to the subscriber. *)
Theorem stale_response_reaches_subscriber :
  let pending := exec pollProps [Mount] in
  let disposed := exec pollProps [Mount; Dispose] in
  let restarted := exec pollProps [Mount; Dispose; Mount] in
  let s' := step pollProps restarted
              (FetchSettled 0 (Response 200 (Some twiceA)) sampleNow) in
  inflight pending = [0]
  /\ mountedRef disposed = false
  /\ (forall (H : Host) (props : Props) (s : State),
        mountedRef (mount (H := H) props s) = true)
  /\ notified restarted = [] /\ current restarted = None /\ history restarted = []
  /\ exists vector,
       vectorOfBody twiceA sampleNow = Some vector
       /\ notified s' = [vector]
       /\ current s' = Some vector
       /\ history s' = [vector].
Proof.
  cbn zeta. repeat split; try reflexivity.
  - intros H props s. handlers. split_tests; reflexivity.
  - eexists. repeat split; reflexivity.
Qed.

(** C3 fails on the code: with both endpoints configured, the socket opens
    and then closes (or errors).  The status announces an HTTP fallback, a
    reconnection timer is pending, and that is all: no request has been
    issued and no polling timer runs. *)
Theorem close_announces_fallback_without_polling :
  let closed := exec pushProps [Mount; Deliver (WsOpen 0); Deliver (WsClose 0)] in
  let failed := exec pushProps [Mount; Deliver (WsOpen 0); Deliver (WsError 0)] in
  (statusMessage closed = "WebSocket closed. Falling back to HTTP."
   /\ timeouts closed = [1]
   /\ inflight closed = [] /\ intervals closed = [] /\ pollingRef closed = None)
  /\ (statusMessage failed = "WebSocket error. Using HTTP fallback."
      /\ readyState 0 failed = Some CLOSING
      /\ inflight failed = [] /\ intervals failed = [] /\ pollingRef failed = None).
Proof. cbn zeta. repeat split; reflexivity. Qed.

(** ** Keep-alive *)

(** C9: a message of type [ping] arriving on an open connection is answered
    with [{"type":"pong"}] on that same connection and changes nothing else:
    the connection stays open, the subscriber is not called, and the current
    vector, the history and the status are as before. *)
Theorem ping_answered_with_pong {H : Host} (props : Props) (s : State)
    (ws : nat) (payload : any) (now : string) :
  readyState ws s = Some OPEN ->
  get_opt payload "type" = VStr "ping" ->
  let s' := step props s (WsMessage ws (Some payload) now) in
  s' = setSent (sent s ++ [(ws, pongMsg)]) s
  /\ pongMsg = "{" ++ inQuotes "type" ++ ":" ++ inQuotes "pong" ++ "}"
  /\ readyState ws s' = Some OPEN
  /\ notified s' = notified s
  /\ current s' = current s
  /\ history s' = history s
  /\ statusMessage s' = statusMessage s.
Proof.
  intros Hopen Hty.
  assert (E : step props s (WsMessage ws (Some payload) now)
              = setSent (sent s ++ [(ws, pongMsg)]) s).
  { unfold step, onMessage. rewrite Hopen, Hty.
    change (("ping" =? "mindVectorUpdate") && ToBoolean (get_opt payload "data"))
      with false.
    change ("ping" =? "ping") with true. cbv iota.
    unfold send. now rewrite Hopen. }
  cbn zeta. rewrite E. repeat split; trivial.
Qed.

Lemma ping_answered_with_pong_witness :
  let s := exec pushProps [Mount; Deliver (WsOpen 0)] in
  let s' := step pushProps s (WsMessage 0 (Some (VObj [("type", VStr "ping")])) sampleNow) in
  sent s' = (sent s ++ [(0, pongMsg)])%list
  /\ readyState 0 s' = Some OPEN
  /\ notified s' = notified s.
Proof.
  cbn zeta.
  assert (Hopen : readyState 0 (exec pushProps [Mount; Deliver (WsOpen 0)]) = Some OPEN)
    by reflexivity.
  assert (Hty : get_opt (VObj [("type", VStr "ping")]) "type" = VStr "ping")
    by reflexivity.
  destruct (@ping_answered_with_pong _ pushProps _ _ _ sampleNow Hopen Hty)
    as (E & _ & Hopen' & Hn & _).
  rewrite E in *. repeat split; trivial.
Defined.

(** ** Polling *)

(** C7, as stated, fails: the polling timer fires while the request issued at
    mount is still pending, and a second request goes out. *)
Lemma tick_overlaps_pending_request :
  inflight (exec pollProps [Mount]) = [0]
  /\ inflight (exec pollProps [Mount; Deliver (IntervalFired 1)]) = [0; 2].
Proof. split; reflexivity. Qed.

(** C7 (amended): every firing of the polling timer issues one more request,
    whatever requests are still pending. *)
Theorem tick_issues_request_regardless {H : Host} (props : Props) (s : State)
    (t : nat) :
  given (fetchApiUrl props) && given (walletAddress props) = true ->
  existsb (fun p => (fst p =? t)%nat) (intervals s) = true ->
  inflight (step props s (IntervalFired t)) = (inflight s ++ [nextHandle s])%list.
Proof.
  intros Hcfg Ht. unfold step. rewrite Ht. unfold fetchOnce.
  apply andb_true_iff in Hcfg. destruct Hcfg as [-> ->]. reflexivity.
Qed.

Lemma tick_issues_request_regardless_witness :
  inflight (step pollProps (exec pollProps [Mount]) (IntervalFired 1)) = [0; 2].
Proof.
  apply (@tick_issues_request_regardless exampleHost pollProps
           (exec pollProps [Mount]) 1); reflexivity.
Defined.

(** ** Payload shapes *)

Lemma dimensionOfEntry_number {H : Host} (n : number) :
  dimensionOfEntry (VNum n) = Some (dim "dim" (VNum zero)).
Proof. reflexivity. Qed.

Lemma mapM_dimensionOfEntry_numbers {H : Host} (ns : list number) :
  mapM dimensionOfEntry (map VNum ns)
  = Some (map (fun _ => dim "dim" (VNum zero)) ns).
Proof.
  induction ns as [|n ns IH]; [reflexivity|].
  change (mapM dimensionOfEntry (map VNum (n :: ns)))
    with (b <- dimensionOfEntry (VNum n) ;;
          bs <- mapM dimensionOfEntry (map VNum ns) ;; Some (b :: bs)).
  now rewrite dimensionOfEntry_number, IH.
Qed.

(** C6, as stated, fails: from the body [{"vector":[1,2]}] the fetch path
    builds two dimensions that are both named [dim] and both valued [0], not
    [dim0 = 1] and [dim1 = 2]. *)
Lemma legacy_numbers_lose_index_and_value :
  option_map dimensions (vectorOfBody legacyBody sampleNow)
  = Some (VArr [dim "dim" (VNum (Finite 0)); dim "dim" (VNum (Finite 0))])
  /\ VArr [dim "dim" (VNum (Finite 0)); dim "dim" (VNum (Finite 0))]
     <> VArr [dim "dim0" (VNum (Finite 1)); dim "dim1" (VNum (Finite 2))].
Proof. split; [reflexivity | discriminate]. Qed.

(** C6 (amended): for a poll body without a [dimensions] field whose
    [vector] is an array of raw numbers, the fetch path builds one dimension
    per number, in order, each named by the constant [dim] and valued [0]:
    neither the position of a number nor the number itself is used. *)
Theorem legacy_numbers_all_named_dim {H : Host} (data : any) (ns : list number)
    (now : string) :
  get data "dimensions" = Some VUndefined ->
  get data "vector" = Some (VArr (map VNum ns)) ->
  exists vector,
    vectorOfBody data now = Some vector
    /\ dimensions vector = VArr (map (fun _ => dim "dim" (VNum zero)) ns).
Proof.
  intros Hd Hv. unfold vectorOfBody.
  destruct data as [| | | | | |props]; try discriminate Hd; try discriminate Hv.
  rewrite Hd, Hv.
  change (get (VObj props) "timestamp")
    with (Some (match own "timestamp" props with Some x => x | None => VUndefined end)).
  change (get (VObj props) "visualState")
    with (Some (match own "visualState" props with Some x => x | None => VUndefined end)).
  change (get (VObj props) "emoji")
    with (Some (match own "emoji" props with Some x => x | None => VUndefined end)).
  cbv beta iota.
  change (ToBoolean VUndefined) with false.
  change (ToBoolean (VArr (map VNum ns))) with true.
  cbv beta iota.
  rewrite mapM_dimensionOfEntry_numbers.
  eexists. split; reflexivity.
Qed.

Lemma legacy_numbers_all_named_dim_witness :
  exists vector,
    vectorOfBody legacyBody sampleNow = Some vector
    /\ dimensions vector = VArr [dim "dim" (VNum zero); dim "dim" (VNum zero)].
Proof.
  apply (@legacy_numbers_all_named_dim exampleHost legacyBody [Finite 1; Finite 2] sampleNow);
    reflexivity.
Defined.

(** X22: legacy entries that are objects keep their name and value.  For a
    poll body without a [dimensions] field whose [vector] is an array of
    objects [{name, value}] or [{label, value}] with a non-empty name (or
    label) and a numeric value, the fetch path builds, in order, one
    dimension per entry, carrying that name (or label) and that value. *)
Theorem legacy_objects_keep_name_and_value {H : Host} (data : any)
    (entries : list LegacyEntry) (now : string) :
  get data "dimensions" = Some VUndefined ->
  get data "vector" = Some (VArr (map legacyEntry entries)) ->
  Forall (fun e => entryName e <> EmptyString) entries ->
  exists vector,
    vectorOfBody data now = Some vector
    /\ dimensions vector
       = VArr (map (fun e => dim (entryName e) (VNum (entryValue e))) entries).
Proof.
  intros Hd Hv Hnames.
  assert (Hmap : mapM dimensionOfEntry (map legacyEntry entries)
                 = Some (map (fun e => dim (entryName e) (VNum (entryValue e))) entries)).
  { clear Hv. induction Hnames as [|e es He Hes IH]; [reflexivity|].
    change (mapM dimensionOfEntry (map legacyEntry (e :: es)))
      with (b <- dimensionOfEntry (legacyEntry e) ;;
            bs <- mapM dimensionOfEntry (map legacyEntry es) ;; Some (b :: bs)).
    rewrite IH.
    assert (Ee : dimensionOfEntry (legacyEntry e)
                 = Some (dim (entryName e) (VNum (entryValue e)))).
    { destruct e as [l [|c s'] x]; [now elim He|]. now destruct l. }
    now rewrite Ee. }
  unfold vectorOfBody.
  destruct data as [| | | | | |props]; try discriminate Hd; try discriminate Hv.
  rewrite Hd, Hv.
  change (get (VObj props) "timestamp")
    with (Some (match own "timestamp" props with Some x => x | None => VUndefined end)).
  change (get (VObj props) "visualState")
    with (Some (match own "visualState" props with Some x => x | None => VUndefined end)).
  change (get (VObj props) "emoji")
    with (Some (match own "emoji" props with Some x => x | None => VUndefined end)).
  cbv beta iota.
  change (ToBoolean VUndefined) with false.
  change (ToBoolean (VArr (map legacyEntry entries))) with true.
  cbv beta iota.
  rewrite Hmap.
  eexists. split; reflexivity.
Qed.

Lemma legacy_objects_keep_name_and_value_witness :
  let body :=
    VObj [("vector",
           VArr [VObj [("name", VStr "focus"); ("value", VNum (Finite 3))];
                 VObj [("label", VStr "calm"); ("value", VNum (Finite 7))]])] in
  exists vector,
    vectorOfBody body sampleNow = Some vector
    /\ dimensions vector
       = VArr [dim "focus" (VNum (Finite 3)); dim "calm" (VNum (Finite 7))].
Proof.
  cbn zeta.
  apply (@legacy_objects_keep_name_and_value exampleHost _
           [ {| byLabel := false; entryName := "focus"; entryValue := Finite 3 |};
             {| byLabel := true; entryName := "calm"; entryValue := Finite 7 |} ]
           sampleNow).
  - reflexivity.
  - reflexivity.
  - repeat constructor; discriminate.
Defined.


Section PayloadFacts.
Context {H : Host}.
Variable props : Props.







End PayloadFacts.



(** ** The subscribe handshake *)

Section SocketFacts.
Context {H : Host}.
Variable props : Props.

(** What an action does to the sockets and to the log of sent messages. *)
Lemma act_sockets s a :
  let s' := act props s a in
  (sockets s' = sockets s
   \/ (exists ws r, r <> CONNECTING /\ sockets s' = map (retag ws r) (sockets s))
   \/ (exists n, sockets s' = (sockets s ++ [(n, CONNECTING)])%list
                 /\ negb (given (websocketUrl props))
                    || negb (given (walletAddress props)) = false))
  /\ (sent s' = sent s
      \/ exists ws m, sent s' = (sent s ++ [(ws, m)])%list
                      /\ readyState ws s' = Some OPEN).
Proof.
  destruct a as [| |[]]; handlers; split_tests; cbn;
    (split;
     [ first [ now left
             | right; left; do 2 eexists; split; [|reflexivity]; discriminate
             | right; right; eexists; split;
               [reflexivity | first [assumption | reflexivity]] ]
     | first [ now left
             | right; do 2 eexists; split; [reflexivity | eassumption] ] ]).
Qed.

Lemma act_sentOnOpened s a : sentOnOpened s -> sentOnOpened (act props s a).
Proof.
  intros Hinv. destruct (act_sockets s a) as [Hsock Hsent].
  assert (Hold : forall ws r, lookupSocket ws (sockets s) = Some r -> r <> CONNECTING ->
                   exists r', lookupSocket ws (sockets (act props s a)) = Some r'
                              /\ r' <> CONNECTING).
  { intros ws r Hl Hr.
    destruct Hsock as [-> | [(ws0 & r0 & Hr0 & ->) | (n & -> & _)]].
    - eauto.
    - rewrite lookupSocket_retag, Hl. destruct (ws =? ws0)%nat; cbn; eauto.
    - rewrite lookupSocket_app, Hl. eauto. }
  intros ws m Hin. unfold readyState.
  destruct Hsent as [E | (ws1 & m1 & E & Hopen)]; rewrite E in Hin.
  - destruct (Hinv ws m Hin) as (r & Hl & Hr). eauto.
  - apply in_app_or in Hin. destruct Hin as [Hin | [[= <- <-] | []]].
    + destruct (Hinv ws m Hin) as (r & Hl & Hr). eauto.
    + exists OPEN. split; [exact Hopen | discriminate].
Qed.

Lemma act_configured s a :
  sockets s = []
  \/ negb (given (websocketUrl props)) || negb (given (walletAddress props)) = false ->
  sockets (act props s a) = []
  \/ negb (given (websocketUrl props)) || negb (given (walletAddress props)) = false.
Proof.
  intros [Hs | Hc]; [|now right].
  destruct (act_sockets s a) as [[-> | [(ws0 & r0 & _ & ->) | (n & _ & Hc)]] _].
  - now left.
  - left. now rewrite Hs.
  - now right.
Qed.

Lemma exec_sockets actions :
  sentOnOpened (exec props actions)
  /\ (sockets (exec props actions) = []
      \/ negb (given (websocketUrl props)) || negb (given (walletAddress props)) = false).
Proof.
  apply exec_invariant
    with (P := fun s =>
                 sentOnOpened s
                 /\ (sockets s = []
                     \/ negb (given (websocketUrl props))
                        || negb (given (walletAddress props)) = false)).
  - split; [|now left]. intros ws m [].
  - intros s a [Hs Hc]. split; [now apply act_sentOnOpened | now apply act_configured].
Qed.

Lemma open_sends_subscribe s ws :
  readyState ws s = Some CONNECTING ->
  sent (step props s (WsOpen ws)) = (sent s ++ [(ws, subscribeMsg props)])%list.
Proof.
  intros Hc. unfold step. rewrite Hc. unfold onOpen, send.
  change (readyState ws
            (setStatusMessage "Connected. Subscribing to mind vector updates…"
               (setReadyState ws OPEN s)))
    with (lookupSocket ws (map (retag ws OPEN) (sockets s))).
  rewrite lookupSocket_retag, Nat.eqb_refl.
  unfold readyState in Hc. rewrite Hc. reflexivity.
Qed.

End SocketFacts.

(** C8, as stated, fails: for the wallet [wallet1] the message sent on open
    has the topic [mindVector] and carries the identifier under [wallet],
    which is not the handshake
    [{"type":"subscribe","topic":"stateVector","subject":"wallet1"}]. *)
Lemma subscribe_differs_from_stated_handshake :
  sent (exec pushProps [Mount; Deliver (WsOpen 0)])
  = [(0, "{" ++ inQuotes "type" ++ ":" ++ inQuotes "subscribe" ++ ","
             ++ inQuotes "topic" ++ ":" ++ inQuotes "mindVector" ++ ","
             ++ inQuotes "wallet" ++ ":" ++ inQuotes "wallet1" ++ "}")]
  /\ sent (exec pushProps [Mount; Deliver (WsOpen 0)]) <> [(0, specHandshake "wallet1")].
Proof. split; [reflexivity | discriminate]. Qed.

(** C8 (amended): when a connection opens, the client sends on it exactly
    [{"type":"subscribe","topic":"mindVector","wallet":"<walletAddress>"}],
    with the configured wallet address, and nothing has been sent on that
    connection before. *)
Theorem open_sends_subscribe_first {H : Host} (props : Props)
    (actions : list Action) (ws : nat) :
  let s := exec props actions in
  readyState ws s = Some CONNECTING ->
  (forall m, ~ In (ws, m) (sent s))
  /\ sent (step props s (WsOpen ws)) = (sent s ++ [(ws, subscribeMsg props)])%list
  /\ exists w,
       walletAddress props = Some w
       /\ subscribeMsg props
          = "{" ++ inQuotes "type" ++ ":" ++ inQuotes "subscribe" ++ ","
                ++ inQuotes "topic" ++ ":" ++ inQuotes "mindVector" ++ ","
                ++ inQuotes "wallet" ++ ":" ++ quoteJSON w ++ "}".
Proof.
  cbn zeta. intros Hc.
  destruct (exec_sockets props actions) as [Hsent Hcfg].
  split; [|split].
  - intros m Hin. destruct (Hsent ws m Hin) as (r & Hr & Hne). congruence.
  - now apply open_sends_subscribe.
  - destruct Hcfg as [Hnil | Hcfg].
    + unfold readyState in Hc. rewrite Hnil in Hc. discriminate Hc.
    + apply orb_false_iff in Hcfg. destruct Hcfg as [_ Hw].
      unfold subscribeMsg.
      destruct (walletAddress props) as [w|]; [|discriminate Hw].
      exists w. split; reflexivity.
Qed.

Lemma open_sends_subscribe_first_witness :
  (forall m, ~ In (0, m) (sent (exec pushProps [Mount])))
  /\ sent (step pushProps (exec pushProps [Mount]) (WsOpen 0))
     = (sent (exec pushProps [Mount]) ++ [(0, subscribeMsg pushProps)])%list.
Proof.
  assert (Hc : readyState 0 (exec pushProps [Mount]) = Some CONNECTING) by reflexivity.
  destruct (@open_sends_subscribe_first exampleHost pushProps [Mount] 0 Hc)
    as (first & sends & _).
  split; assumption.
Defined.

(** * Further properties of the component *)

(** ** Channel selection at mount *)

Section MountFacts.
Context {H : Host}.
Variable props : Props.

(** A component that holds no socket, no timer and no pending request has
    nothing a host event could be delivered to. *)
Lemma step_inert s e :
  sockets s = [] -> timeouts s = [] -> intervals s = [] -> inflight s = [] ->
  step props s e = s.
Proof.
  intros Hs Ht Hi Hf.
  destruct e; unfold step, readyState, lookupSocket;
    rewrite ?Hs, ?Ht, ?Hi, ?Hf; reflexivity.
Qed.

Lemma run_inert s events :
  sockets s = [] -> timeouts s = [] -> intervals s = [] -> inflight s = [] ->
  run props s events = s.
Proof.
  intros Hs Ht Hi Hf. induction events as [|e events IH]; [reflexivity|].
  change (run props s (e :: events)) with (run props (step props s e) events).
  now rewrite step_inert.
Qed.

End MountFacts.

(** X1: without a usable data source the component does nothing at all.
    Mounted with neither the WebSocket nor the HTTP endpoint usable, it
    reports that no data source is configured, creates no socket, request or
    timer, and no later host event changes anything. *)
Theorem no_source_is_terminal {H : Host} (props : Props) (events : list Event) :
  given (websocketUrl props) && given (walletAddress props) = false ->
  given (fetchApiUrl props) && given (walletAddress props) = false ->
  let s := mount props initialState in
  statusMessage s = "No data source configured (websocketUrl or fetchApiUrl required)."
  /\ sockets s = [] /\ inflight s = [] /\ intervals s = [] /\ timeouts s = []
  /\ run props s events = s.
Proof.
  intros Hws Hhttp. cbn zeta.
  assert (E : mount props initialState
              = setStatusMessage
                  "No data source configured (websocketUrl or fetchApiUrl required)."
                  (setMountedRef true initialState)).
  { unfold mount. now rewrite Hws, Hhttp. }
  rewrite E. repeat split. now apply run_inert.
Qed.

Lemma no_source_is_terminal_witness :
  run noSourceProps (mount noSourceProps initialState)
    [WsOpen 0; IntervalFired 1; TimeoutFired 0; FetchSettled 0 Rejected sampleNow]
  = mount noSourceProps initialState.
Proof.
  assert (Hws : given (websocketUrl noSourceProps) && given (walletAddress noSourceProps)
                = false) by reflexivity.
  assert (Hhttp : given (fetchApiUrl noSourceProps) && given (walletAddress noSourceProps)
                  = false) by reflexivity.
  exact (proj2 (proj2 (proj2 (proj2 (proj2
           (@no_source_is_terminal exampleHost noSourceProps _ Hws Hhttp)))))).
Defined.

(** X2: a WebSocket URL that the constructor rejects is never retried and is
    not replaced by polling.  The status announces an HTTP fallback, but no
    socket, timer or request exists, and no later host event changes
    anything, even when an HTTP endpoint is configured. *)
Theorem rejected_url_is_terminal {H : Host} (props : Props) (url : string)
    (events : list Event) :
  websocketUrl props = Some url ->
  given (websocketUrl props) && given (walletAddress props) = true ->
  WebSocket_accepts url = false ->
  let s := mount props initialState in
  statusMessage s = "WebSocket init error. Using HTTP fallback."
  /\ sockets s = [] /\ inflight s = [] /\ intervals s = [] /\ timeouts s = []
  /\ wsRef s = None
  /\ run props s events = s.
Proof.
  intros Hurl Hcfg Hacc. cbn zeta.
  assert (E : mount props initialState
              = setStatusMessage "WebSocket init error. Using HTTP fallback."
                  (setMountedRef true initialState)).
  { unfold mount, connectWebSocket. rewrite Hcfg.
    apply andb_true_iff in Hcfg. destruct Hcfg as [-> ->].
    rewrite Hurl in *. now rewrite Hacc. }
  rewrite E. repeat split. now apply run_inert.
Qed.

Lemma rejected_url_is_terminal_witness :
  statusMessage (mount badUrlProps initialState)
  = "WebSocket init error. Using HTTP fallback."
  /\ run badUrlProps (mount badUrlProps initialState)
       [TimeoutFired 0; IntervalFired 0; WsOpen 0]
     = mount badUrlProps initialState.
Proof.
  assert (Hurl : websocketUrl badUrlProps = Some "http://x/ws") by reflexivity.
  assert (Hcfg : given (websocketUrl badUrlProps) && given (walletAddress badUrlProps)
                 = true) by reflexivity.
  assert (Hacc : WebSocket_accepts "http://x/ws" = false) by reflexivity.
  destruct (@rejected_url_is_terminal exampleHost badUrlProps _
              [TimeoutFired 0; IntervalFired 0; WsOpen 0] Hurl Hcfg Hacc)
    as (Hst & _ & _ & _ & _ & _ & Hrun).
  split; assumption.
Defined.

(** X3: with only the HTTP endpoint usable, mounting issues one request at
    once and starts one polling timer, whose period is [pollingIntervalMs]
    or, when that prop is absent, 15000 ms; no socket is created. *)
Theorem mount_starts_polling {H : Host} (props : Props) :
  given (websocketUrl props) && given (walletAddress props) = false ->
  given (fetchApiUrl props) && given (walletAddress props) = true ->
  let s := mount props initialState in
  inflight s = [0]
  /\ intervals s = [(1, match pollingIntervalMs props with
                        | Some ms => ms
                        | None => 15000%N
                        end)]
  /\ pollingRef s = Some 1
  /\ sockets s = [] /\ timeouts s = []
  /\ statusMessage s = "Fetching mind vector via HTTP…".
Proof.
  intros Hws Hhttp. cbn zeta. unfold mount. rewrite Hws, Hhttp.
  unfold fetchOnce.
  apply andb_true_iff in Hhttp. destruct Hhttp as [-> ->].
  repeat split.
Qed.

Lemma mount_starts_polling_witness :
  intervals (mount pollProps initialState) = [(1, 15000%N)]
  /\ intervals (mount throwingPollProps initialState) = [(1, 1000%N)]
  /\ inflight (mount pollProps initialState) = [0].
Proof.
  assert (Hws : given (websocketUrl pollProps) && given (walletAddress pollProps) = false)
    by reflexivity.
  assert (Hhttp : given (fetchApiUrl pollProps) && given (walletAddress pollProps) = true)
    by reflexivity.
  assert (Hws' : given (websocketUrl throwingPollProps)
                 && given (walletAddress throwingPollProps) = false) by reflexivity.
  assert (Hhttp' : given (fetchApiUrl throwingPollProps)
                   && given (walletAddress throwingPollProps) = true) by reflexivity.
  destruct (@mount_starts_polling exampleHost pollProps Hws Hhttp) as (Hf & Hi & _).
  destruct (@mount_starts_polling exampleHost throwingPollProps Hws' Hhttp') as (_ & Hi' & _).
  repeat split; assumption.
Defined.

(** X4: the WebSocket excludes polling.  With the WebSocket URL and the
    wallet configured, no sequence of mounts, clean-ups and host events ever
    issues an HTTP request or starts the polling timer, whether or not an
    HTTP endpoint is configured as well. *)
Theorem push_excludes_polling {H : Host} (props : Props) (actions : list Action) :
  given (websocketUrl props) && given (walletAddress props) = true ->
  inflight (exec props actions) = []
  /\ intervals (exec props actions) = []
  /\ pollingRef (exec props actions) = None.
Proof. apply push_configured_never_polls. Qed.

Lemma push_excludes_polling_witness :
  inflight (exec pushProps
              [Mount; Deliver (WsOpen 0); Deliver (WsClose 0); Deliver (TimeoutFired 1)])
  = [].
Proof.
  assert (Hcfg : given (websocketUrl pushProps) && given (walletAddress pushProps) = true)
    by reflexivity.
  exact (proj1 (@push_excludes_polling exampleHost pushProps _ Hcfg)).
Defined.

(** ** Polling *)

Section PollingFacts.
Context {H : Host}.
Variable props : Props.

Lemma step_keeps_intervals s e :
  intervals (step props s e) = intervals s
  /\ pollingRef (step props s e) = pollingRef s.
Proof. destruct e; handlers; split_tests; cbn; auto. Qed.

Lemma failed_fetch_effect s f r now :
  (r = Rejected \/ (exists status, r = Response status None)
   \/ exists status body,
        r = Response status body
        /\ (200 <=? status)%nat && (status <=? 299)%nat = false) ->
  let s' := step props s (FetchSettled f r now) in
  current s' = current s /\ history s' = history s /\ notified s' = notified s
  /\ inflight s' = removeHandle f (inflight s).
Proof.
  intros Hr. cbn zeta.
  assert (Hnot : existsb (Nat.eqb f) (inflight s) = false ->
                 removeHandle f (inflight s) = inflight s).
  { unfold removeHandle. generalize (inflight s) as l.
    induction l as [|x l IH]; [reflexivity|]. intros Hl.
    change (existsb (Nat.eqb f) (x :: l))
      with ((f =? x)%nat || existsb (Nat.eqb f) l) in Hl.
    apply orb_false_iff in Hl. destruct Hl as [Hx Hl].
    change (filter (fun y => negb (y =? f)%nat) (x :: l))
      with (if negb (x =? f)%nat
            then x :: filter (fun y => negb (y =? f)%nat) l
            else filter (fun y => negb (y =? f)%nat) l).
    rewrite (Nat.eqb_sym x f), Hx. cbn [negb]. f_equal. now apply IH. }
  unfold step. destruct (existsb (Nat.eqb f) (inflight s)) eqn:Hf.
  - destruct Hr as [-> | [(status & ->) | (status & body & -> & Hbad)]];
      unfold onFetchSettled, httpError; rewrite ?Hbad;
      try destruct ((200 <=? status)%nat && (status <=? 299)%nat); cbn; auto.
  - rewrite (Hnot eq_refl). auto.
Qed.

End PollingFacts.

(** X5: polling is never stopped by a host event.  Whatever arrives (a
    rejected or failed request, a socket event, a timer), the polling timers
    and [pollingRef] are as before. *)
Theorem events_never_stop_polling {H : Host} (props : Props) (s : State)
    (events : list Event) :
  intervals (run props s events) = intervals s
  /\ pollingRef (run props s events) = pollingRef s.
Proof.
  revert s. induction events as [|e events IH]; intros s; [now split|].
  change (run props s (e :: events)) with (run props (step props s e) events).
  destruct (IH (step props s e)) as [-> ->]. apply step_keeps_intervals.
Qed.

(** X6: a request that fails stores nothing.  When [fetch] rejects, when the
    body is not JSON, or when the status is not 2xx, the current vector, the
    history and the subscriber are untouched and the request is no longer in
    flight; a pending request that ends with a non-2xx status is reported as
    [HTTP fetch failed: <status>], the two other failures as [HTTP error]. *)
Theorem failed_fetch_stores_nothing {H : Host} (props : Props) (s : State)
    (f : nat) (now : string) :
  (forall r,
      (r = Rejected \/ (exists status, r = Response status None)
       \/ exists status body,
            r = Response status body
            /\ (200 <=? status)%nat && (status <=? 299)%nat = false) ->
      let s' := step props s (FetchSettled f r now) in
      current s' = current s /\ history s' = history s /\ notified s' = notified s
      /\ inflight s' = removeHandle f (inflight s))
  /\ (existsb (Nat.eqb f) (inflight s) = true ->
      statusMessage (step props s (FetchSettled f Rejected now)) = "HTTP error"
      /\ (forall status,
             (200 <=? status)%nat && (status <=? 299)%nat = true ->
             statusMessage (step props s (FetchSettled f (Response status None) now))
             = "HTTP error")
      /\ (forall status body,
             (200 <=? status)%nat && (status <=? 299)%nat = false ->
             statusMessage (step props s (FetchSettled f (Response status body) now))
             = "HTTP fetch failed: "
                 ++ NumberToString (Finite (inject_Z (Z.of_nat status))))).
Proof.
  split; [intros r Hr; now apply failed_fetch_effect|].
  intros Hf. unfold step. rewrite Hf. unfold onFetchSettled, httpError.
  split; [reflexivity|]. split.
  - intros status Hok. now rewrite Hok.
  - intros status body Hbad. now rewrite Hbad.
Qed.

Lemma failed_fetch_stores_nothing_witness :
  let s := mount pollProps initialState in
  statusMessage (step pollProps s (FetchSettled 0 (Response 503 None) sampleNow))
  = "HTTP fetch failed: 503"
  /\ current (step pollProps s (FetchSettled 0 (Response 503 None) sampleNow)) = None.
Proof.
  cbn zeta.
  destruct (@failed_fetch_stores_nothing exampleHost pollProps
              (mount pollProps initialState) 0 sampleNow) as [Hnothing Hstatus].
  assert (Hf : existsb (Nat.eqb 0) (inflight (mount pollProps initialState)) = true)
    by reflexivity.
  assert (Hbad : (200 <=? 503)%nat && (503 <=? 299)%nat = false) by reflexivity.
  destruct (Hstatus Hf) as (_ & _ & Hcode).
  split.
  - exact (Hcode 503 None Hbad).
  - assert (Hr : Response 503 None = Rejected
                 \/ (exists status, Response 503 None = Response status None)
                 \/ exists status body,
                      Response 503 None = Response status body
                      /\ (200 <=? status)%nat && (status <=? 299)%nat = false).
    { right. left. now exists 503. }
    exact (proj1 (Hnothing _ Hr)).
Defined.

(** ** The subscriber and the status *)

Section SubscriberFacts.
Context {H : Host}.
Variable props : Props.

Lemma accept_effect vector done caught s :
  mountedRef s = true ->
  let s' := accept props vector done caught s in
  (match onUpdate props with
   | None => statusMessage s' = done /\ notified s' = notified s
   | Some f =>
       if f vector
       then statusMessage s' = done /\ notified s' = (notified s ++ [vector])%list
       else s' = caught (setNotified (notified s ++ [vector])%list
                           (setHistory (pushHistory vector) (setCurrent vector s)))
   end).
Proof.
  intros Hm. cbn zeta. unfold accept. rewrite Hm. cbn [negb].
  destruct (onUpdate props) as [f|]; [destruct (f vector)|]; cbn; auto.
Qed.

Lemma push_update_status s ws data now :
  readyState ws s = Some OPEN ->
  mountedRef s = true ->
  ToBoolean data = true ->
  step props s (WsMessage ws (Some (updateOf data)) now)
  = accept props (vectorOfUpdate data now) "Live" (fun s' => s') s.
Proof.
  intros Hopen Hm Hdata. unfold step, onMessage. rewrite Hopen.
  change (get_opt (updateOf data) "type") with (VStr "mindVectorUpdate").
  change (get_opt (updateOf data) "data") with data.
  rewrite Hdata. reflexivity.
Qed.

Lemma poll_body_status s f status data now vector :
  existsb (Nat.eqb f) (inflight s) = true ->
  (200 <=? status)%nat && (status <=? 299)%nat = true ->
  vectorOfBody data now = Some vector ->
  step props s (FetchSettled f (Response status (Some data)) now)
  = accept props vector "HTTP OK" httpError
      (setInflight (removeHandle f (inflight s)) s).
Proof.
  intros Hf Hok Hv. unfold step. rewrite Hf. unfold onFetchSettled.
  now rewrite Hok, Hv.
Qed.

(** Each event calls the subscriber at most once, with the vector it has
    just stored. *)
Lemma step_notifies_once s e :
  notified (step props s e) = notified s
  \/ exists vector,
       notified (step props s e) = (notified s ++ [vector])%list
       /\ current (step props s e) = Some vector
       /\ hd_error (history (step props s e)) = Some vector.
Proof.
  destruct e; handlers; split_tests; cbn; first [now left | right; eauto].
Qed.

(** What an action adds to the log of sent messages. *)
Lemma act_sends s a :
  sent (act props s a) = sent s
  \/ exists ws m,
       sent (act props s a) = (sent s ++ [(ws, m)])%list
       /\ (m = subscribeMsg props \/ m = pongMsg).
Proof.
  destruct a as [| |[]]; handlers; split_tests; cbn;
    first [now left | right; do 2 eexists; split; [reflexivity | auto]].
Qed.

End SubscriberFacts.

(** X7: an accepted update shows [Live], an accepted poll response [HTTP OK].
    When a mounted component accepts a vector and the subscriber is absent or
    returns normally, the status is [Live] on the push path and [HTTP OK] on
    the polling path. *)
Theorem accepted_vector_sets_status {H : Host} (props : Props) (s : State)
    (now : string) :
  mountedRef s = true ->
  (forall f, onUpdate props = Some f -> forall vector, f vector = true) ->
  (forall ws data,
      readyState ws s = Some OPEN -> ToBoolean data = true ->
      statusMessage (step props s (WsMessage ws (Some (updateOf data)) now)) = "Live")
  /\ (forall f status data vector,
        existsb (Nat.eqb f) (inflight s) = true ->
        (200 <=? status)%nat && (status <=? 299)%nat = true ->
        vectorOfBody data now = Some vector ->
        statusMessage (step props s (FetchSettled f (Response status (Some data)) now))
        = "HTTP OK").
Proof.
  intros Hm Hquiet. split.
  - intros ws data Hopen Hdata. rewrite push_update_status by trivial.
    pose proof (@accept_effect props (vectorOfUpdate data now) "Live"
                  (fun s' => s') s Hm) as E. cbn zeta in E.
    destruct (onUpdate props) as [g|] eqn:Hg; [|apply E].
    rewrite (Hquiet g eq_refl) in E. apply E.
  - intros f status data vector Hf Hok Hv.
    rewrite (@poll_body_status _ props s f status data now vector) by trivial.
    pose proof (@accept_effect props vector "HTTP OK" httpError
                  (setInflight (removeHandle f (inflight s)) s) Hm) as E.
    cbn zeta in E.
    destruct (onUpdate props) as [g|] eqn:Hg; [|apply E].
    rewrite (Hquiet g eq_refl) in E. apply E.
Qed.

Lemma accepted_vector_sets_status_witness :
  statusMessage
    (step pushProps (exec pushProps [Mount; Deliver (WsOpen 0)])
       (WsMessage 0 (Some (updateOf twiceA)) sampleNow)) = "Live"
  /\ statusMessage
       (step pollProps (exec pollProps [Mount])
          (FetchSettled 0 (Response 200 (Some legacyBody)) sampleNow)) = "HTTP OK".
Proof.
  assert (Hm : mountedRef (exec pushProps [Mount; Deliver (WsOpen 0)]) = true)
    by reflexivity.
  assert (Hq : forall f, onUpdate pushProps = Some f -> forall vector, f vector = true).
  { intros f [= <-] vector. reflexivity. }
  assert (Hm' : mountedRef (exec pollProps [Mount]) = true) by reflexivity.
  assert (Hq' : forall f, onUpdate pollProps = Some f -> forall vector, f vector = true).
  { intros f [= <-] vector. reflexivity. }
  destruct (@accepted_vector_sets_status exampleHost pushProps _ sampleNow Hm Hq)
    as [Hpush _].
  destruct (@accepted_vector_sets_status exampleHost pollProps _ sampleNow Hm' Hq')
    as [_ Hpoll].
  split.
  - assert (Hopen : readyState 0 (exec pushProps [Mount; Deliver (WsOpen 0)]) = Some OPEN)
      by reflexivity.
    assert (Hdata : ToBoolean twiceA = true) by reflexivity.
    exact (Hpush 0 twiceA Hopen Hdata).
  - assert (Hf : existsb (Nat.eqb 0) (inflight (exec pollProps [Mount])) = true)
      by reflexivity.
    assert (Hok : (200 <=? 200)%nat && (200 <=? 299)%nat = true) by reflexivity.
    destruct (vectorOfBody legacyBody sampleNow) as [vector|] eqn:Hv;
      [|discriminate Hv].
    exact (Hpoll 0 200 legacyBody vector Hf Hok Hv).
Defined.

(** X8: a throwing subscriber does not undo the update.  When [onUpdate]
    throws on an accepted vector, the vector is the current one and heads the
    history all the same, but the status is not advanced: it stays what it
    was on the push path and becomes [HTTP error] on the polling path. *)
Theorem throwing_subscriber_keeps_vector {H : Host} (props : Props) (s : State)
    (now : string) (g : MindVector -> bool) :
  mountedRef s = true ->
  onUpdate props = Some g ->
  (forall ws data,
      readyState ws s = Some OPEN -> ToBoolean data = true ->
      g (vectorOfUpdate data now) = false ->
      let s' := step props s (WsMessage ws (Some (updateOf data)) now) in
      current s' = Some (vectorOfUpdate data now)
      /\ history s' = pushHistory (vectorOfUpdate data now) (history s)
      /\ notified s' = (notified s ++ [vectorOfUpdate data now])%list
      /\ statusMessage s' = statusMessage s)
  /\ (forall f status data vector,
        existsb (Nat.eqb f) (inflight s) = true ->
        (200 <=? status)%nat && (status <=? 299)%nat = true ->
        vectorOfBody data now = Some vector ->
        g vector = false ->
        let s' := step props s (FetchSettled f (Response status (Some data)) now) in
        current s' = Some vector
        /\ history s' = pushHistory vector (history s)
        /\ notified s' = (notified s ++ [vector])%list
        /\ statusMessage s' = "HTTP error").
Proof.
  intros Hm Hg. split.
  - intros ws data Hopen Hdata Hthrow. cbn zeta.
    rewrite push_update_status by trivial.
    pose proof (@accept_effect props (vectorOfUpdate data now) "Live"
                  (fun s' => s') s Hm) as E. cbn zeta in E.
    rewrite Hg, Hthrow in E. rewrite E. repeat split.
  - intros f status data vector Hf Hok Hv Hthrow. cbn zeta.
    rewrite (@poll_body_status _ props s f status data now vector) by trivial.
    pose proof (@accept_effect props vector "HTTP OK" httpError
                  (setInflight (removeHandle f (inflight s)) s) Hm) as E.
    cbn zeta in E. rewrite Hg, Hthrow in E. rewrite E. repeat split.
Qed.

Lemma throwing_subscriber_keeps_vector_witness :
  let s := exec throwingPushProps [Mount; Deliver (WsOpen 0)] in
  let s' := step throwingPushProps s (WsMessage 0 (Some (updateOf twiceA)) sampleNow) in
  current s' = Some (vectorOfUpdate twiceA sampleNow)
  /\ statusMessage s' = "Connected. Subscribing to mind vector updates…".
Proof.
  cbn zeta.
  assert (Hm : mountedRef (exec throwingPushProps [Mount; Deliver (WsOpen 0)]) = true)
    by reflexivity.
  assert (Hg : onUpdate throwingPushProps = Some throwingSubscriber) by reflexivity.
  destruct (@throwing_subscriber_keeps_vector exampleHost throwingPushProps _ sampleNow
              throwingSubscriber Hm Hg) as [Hpush _].
  assert (Hopen : readyState 0 (exec throwingPushProps [Mount; Deliver (WsOpen 0)])
                  = Some OPEN) by reflexivity.
  assert (Hdata : ToBoolean twiceA = true) by reflexivity.
  assert (Hthrow : throwingSubscriber (vectorOfUpdate twiceA sampleNow) = false)
    by reflexivity.
  destruct (Hpush 0 twiceA Hopen Hdata Hthrow) as (Hc & _ & _ & Hst).
  split; [exact Hc|]. rewrite Hst. reflexivity.
Defined.

(** X9: one event, at most one notification.  Every host event leaves the
    log of subscriber calls as it is or adds one call, and the vector handed
    over is then the current vector and the newest history entry. *)
Theorem event_notifies_at_most_once {H : Host} (props : Props) (s : State)
    (e : Event) :
  notified (step props s e) = notified s
  \/ exists vector,
       notified (step props s e) = (notified s ++ [vector])%list
       /\ current (step props s e) = Some vector
       /\ hd_error (history (step props s e)) = Some vector.
Proof. apply step_notifies_once. Qed.

(** X10: the client only ever sends the subscribe message and pongs.  In
    every run, each message sent on a socket is the subscribe message or the
    pong. *)
Theorem only_subscribe_and_pong_sent {H : Host} (props : Props)
    (actions : list Action) :
  Forall (fun p => snd p = subscribeMsg props \/ snd p = pongMsg)
    (sent (exec props actions)).
Proof.
  apply exec_invariant
    with (P := fun s => Forall (fun p => snd p = subscribeMsg props \/ snd p = pongMsg)
                          (sent s)).
  - constructor.
  - intros s a Hs. destruct (act_sends props s a) as [-> | (ws & m & -> & Hm)]; trivial.
    apply Forall_app. split; trivial. constructor; [exact Hm | constructor].
Qed.

(** ** Reconnection *)

Lemma map_fst_retag ws r l : map fst (map (retag ws r) l) = map fst l.
Proof.
  rewrite map_map. apply map_ext. intros [k v]. unfold retag. cbn [fst].
  destruct (Nat.eqb_spec k ws); subst; reflexivity.
Qed.

Lemma existsb_eqb_last t l : existsb (Nat.eqb t) (l ++ [t]) = true.
Proof.
  rewrite existsb_app. apply orb_true_iff. right.
  change (existsb (Nat.eqb t) [t]) with ((t =? t)%nat || false).
  now rewrite Nat.eqb_refl.
Qed.

Section ReconnectFacts.
Context {H : Host}.
Variable props : Props.

Lemma step_unmounted_sockets s e :
  mountedRef s = false ->
  mountedRef (step props s e) = false
  /\ map fst (sockets (step props s e)) = map fst (sockets s).
Proof.
  intros Hm. destruct e; handlers; split_tests; cbn in *;
    rewrite ?map_fst_retag; auto; rewrite Hm in *; discriminate.
Qed.

Lemma close_effect s ws r :
  readyState ws s = Some r -> isClosed r = false ->
  let s' := step props s (WsClose ws) in
  sockets s' = map (retag ws CLOSED) (sockets s)
  /\ timeouts s' = (timeouts s ++ [nextHandle s])%list
  /\ nextHandle s' = S (nextHandle s)
  /\ statusMessage s' = "WebSocket closed. Falling back to HTTP."
  /\ mountedRef s' = mountedRef s
  /\ readyState ws s' = Some CLOSED.
Proof.
  intros Hr Hopen. cbn zeta. unfold step. rewrite Hr.
  assert (Hl : readyState ws (onClose ws (setReadyState ws CLOSED s)) = Some CLOSED).
  { change (readyState ws (onClose ws (setReadyState ws CLOSED s)))
      with (lookupSocket ws (map (retag ws CLOSED) (sockets s))).
    rewrite lookupSocket_retag, Nat.eqb_refl.
    unfold readyState in Hr. now rewrite Hr. }
  destruct r; try discriminate Hopen; repeat split; exact Hl.
Qed.

Lemma error_effect s ws r :
  readyState ws s = Some r -> isClosed r = false ->
  let s' := step props s (WsError ws) in
  timeouts s' = timeouts s
  /\ nextHandle s' = nextHandle s
  /\ statusMessage s' = "WebSocket error. Using HTTP fallback."
  /\ readyState ws s' = Some CLOSING.
Proof.
  intros Hr Hopen. cbn zeta. unfold step. rewrite Hr. unfold onError, close.
  change (readyState ws (setStatusMessage "WebSocket error. Using HTTP fallback." s))
    with (readyState ws s).
  rewrite Hr.
  assert (Hl : lookupSocket ws (map (retag ws CLOSING) (sockets s)) = Some CLOSING).
  { rewrite lookupSocket_retag, Nat.eqb_refl. unfold readyState in Hr. now rewrite Hr. }
  destruct r; try discriminate Hopen; repeat split; try exact Hl; exact Hr.
Qed.

End ReconnectFacts.

(** X11: a closed connection is re-opened by its timer.  In a mounted
    component whose WebSocket URL is accepted, the close of a socket sets the
    fallback status and leaves one new timer pending; when that timer fires,
    a new socket is created in the connecting state, [wsRef] points to it
    and the status is [Connecting to live updates…]. *)
Theorem close_then_timer_reconnects {H : Host} (props : Props) (s : State)
    (ws : nat) (r : ReadyState) (url : string) :
  mountedRef s = true ->
  websocketUrl props = Some url ->
  given (websocketUrl props) && given (walletAddress props) = true ->
  WebSocket_accepts url = true ->
  readyState ws s = Some r -> isClosed r = false ->
  let closed := step props s (WsClose ws) in
  let again := step props closed (TimeoutFired (nextHandle s)) in
  statusMessage closed = "WebSocket closed. Falling back to HTTP."
  /\ timeouts closed = (timeouts s ++ [nextHandle s])%list
  /\ readyState ws closed = Some CLOSED
  /\ sockets again = (sockets closed ++ [(S (nextHandle s), CONNECTING)])%list
  /\ wsRef again = Some (S (nextHandle s))
  /\ statusMessage again = "Connecting to live updates…".
Proof.
  intros Hm Hurl Hcfg Hacc Hr Hopen. cbn zeta.
  destruct (@close_effect _ props s ws r Hr Hopen) as (Hs & Ht & Hn & Hst & Hm' & Hc).
  cbn zeta in *.
  repeat (split; [assumption|]).
  remember (step props s (WsClose ws)) as closed eqn:Eclosed. clear Eclosed.
  unfold step. rewrite Ht, existsb_eqb_last.
  unfold onReconnectTimer.
  change (mountedRef (setTimeouts (removeHandle (nextHandle s)
                                     (timeouts s ++ [nextHandle s])) closed))
    with (mountedRef closed).
  rewrite Hm', Hm. unfold connectWebSocket. rewrite Hurl in *.
  apply andb_true_iff in Hcfg. destruct Hcfg as [Hu Hw]. rewrite Hu, Hw, Hacc.
  cbn. rewrite Hn. repeat split.
Qed.

Lemma close_then_timer_reconnects_witness :
  let s := exec pushProps [Mount; Deliver (WsOpen 0)] in
  let again := step pushProps (step pushProps s (WsClose 0)) (TimeoutFired 1) in
  wsRef again = Some 2 /\ statusMessage again = "Connecting to live updates…".
Proof.
  cbn zeta.
  assert (Hm : mountedRef (exec pushProps [Mount; Deliver (WsOpen 0)]) = true)
    by reflexivity.
  assert (Hurl : websocketUrl pushProps = Some "wss://x/ws") by reflexivity.
  assert (Hcfg : given (websocketUrl pushProps) && given (walletAddress pushProps) = true)
    by reflexivity.
  assert (Hacc : WebSocket_accepts "wss://x/ws" = true) by reflexivity.
  assert (Hr : readyState 0 (exec pushProps [Mount; Deliver (WsOpen 0)]) = Some OPEN)
    by reflexivity.
  assert (Hopen : isClosed OPEN = false) by reflexivity.
  destruct (@close_then_timer_reconnects exampleHost pushProps _ 0 OPEN "wss://x/ws"
              Hm Hurl Hcfg Hacc Hr Hopen) as (_ & _ & _ & _ & Hws & Hst).
  split; assumption.
Defined.

(** X12: no reconnection once the liveness flag is cleared.  While
    [mountedRef] is false no host event creates a socket: whatever events
    arrive, the sockets are those that existed before and the flag stays
    cleared. *)
Theorem unmounted_never_reconnects {H : Host} (props : Props) (s : State)
    (events : list Event) :
  mountedRef s = false ->
  mountedRef (run props s events) = false
  /\ map fst (sockets (run props s events)) = map fst (sockets s).
Proof.
  revert s. induction events as [|e events IH]; intros s Hm; [now split|].
  change (run props s (e :: events)) with (run props (step props s e) events).
  destruct (@step_unmounted_sockets _ props s e Hm) as [Hm' Hs].
  destruct (IH _ Hm') as [Hm'' Hs'].
  split; [assumption | congruence].
Qed.

Lemma unmounted_never_reconnects_witness :
  let s := setMountedRef false (exec pushProps [Mount; Deliver (WsOpen 0)]) in
  map fst (sockets (run pushProps s [WsClose 0; TimeoutFired 1])) = [0].
Proof.
  cbn zeta.
  assert (Hm : mountedRef (setMountedRef false
                             (exec pushProps [Mount; Deliver (WsOpen 0)])) = false)
    by reflexivity.
  exact (proj2 (@unmounted_never_reconnects exampleHost pushProps _
                  [WsClose 0; TimeoutFired 1] Hm)).
Defined.

(** X13: an error schedules nothing by itself.  The error listener closes
    the socket and sets the fallback status but starts no timer; the close
    that follows starts exactly one, and a further close event for the same
    socket starts none. *)
Theorem error_then_close_schedules_one_timer {H : Host} (props : Props)
    (s : State) (ws : nat) (r : ReadyState) :
  readyState ws s = Some r -> isClosed r = false ->
  let failed := step props s (WsError ws) in
  let closed := step props failed (WsClose ws) in
  timeouts failed = timeouts s
  /\ statusMessage failed = "WebSocket error. Using HTTP fallback."
  /\ readyState ws failed = Some CLOSING
  /\ timeouts closed = (timeouts s ++ [nextHandle s])%list
  /\ step props closed (WsClose ws) = closed.
Proof.
  intros Hr Hopen. cbn zeta.
  destruct (@error_effect _ props s ws r Hr Hopen) as (Ht & Hn & Hst & Hc).
  cbn zeta in *.
  assert (Hopen' : isClosed CLOSING = false) by reflexivity.
  destruct (@close_effect _ props _ ws CLOSING Hc Hopen') as (_ & Ht' & _ & _ & _ & Hc').
  cbn zeta in *.
  repeat (split; [assumption|]). split.
  - now rewrite Ht', Ht, Hn.
  - remember (step props (step props s (WsError ws)) (WsClose ws)) as closed
      eqn:Eclosed. clear Eclosed.
    unfold step. now rewrite Hc'.
Qed.

Lemma error_then_close_schedules_one_timer_witness :
  let s := exec pushProps [Mount; Deliver (WsOpen 0)] in
  timeouts (step pushProps s (WsError 0)) = []
  /\ timeouts (step pushProps (step pushProps s (WsError 0)) (WsClose 0)) = [1].
Proof.
  cbn zeta.
  assert (Hr : readyState 0 (exec pushProps [Mount; Deliver (WsOpen 0)]) = Some OPEN)
    by reflexivity.
  assert (Hopen : isClosed OPEN = false) by reflexivity.
  destruct (@error_then_close_schedules_one_timer exampleHost pushProps _ 0 OPEN Hr Hopen)
    as (Hf & _ & _ & Hc & _).
  split; assumption.
Defined.

(** ** One connection at a time *)

Lemma liveSockets_cons p l :
  liveSockets (p :: l) = (if isClosed (snd p) then 0 else 1) + liveSockets l.
Proof.
  unfold liveSockets.
  change (filter (fun q => negb (isClosed (snd q))) (p :: l))
    with (if negb (isClosed (snd p))
          then p :: filter (fun q => negb (isClosed (snd q))) l
          else filter (fun q => negb (isClosed (snd q))) l).
  now destruct (isClosed (snd p)).
Qed.

Lemma liveSockets_app_connecting l n :
  liveSockets (l ++ [(n, CONNECTING)]) = S (liveSockets l).
Proof.
  induction l as [|p l IH]; [reflexivity|].
  change ((p :: l) ++ [(n, CONNECTING)])%list with (p :: (l ++ [(n, CONNECTING)]))%list.
  rewrite !liveSockets_cons, IH. lia.
Qed.

Lemma retag_absent ws r l : ~ In ws (map fst l) -> map (retag ws r) l = l.
Proof.
  induction l as [|[k v] l IH]; intros Hn; [reflexivity|].
  change (map (retag ws r) ((k, v) :: l)) with (retag ws r (k, v) :: map (retag ws r) l).
  change (map fst ((k, v) :: l)) with (k :: map fst l) in Hn.
  rewrite IH by (intros Hin; apply Hn; now right).
  unfold retag. cbn [fst]. destruct (Nat.eqb_spec k ws) as [-> | _]; [|reflexivity].
  exfalso. apply Hn. now left.
Qed.

Lemma liveSockets_retag ws r r0 l :
  NoDup (map fst l) ->
  lookupSocket ws l = Some r0 ->
  liveSockets (map (retag ws r) l) + (if isClosed r0 then 0 else 1)
  = liveSockets l + (if isClosed r then 0 else 1).
Proof.
  induction l as [|[k v] l IH]; intros Hnd Hl; [discriminate Hl|].
  change (map fst ((k, v) :: l)) with (k :: map fst l) in Hnd.
  inversion Hnd as [|? ? Hk Hnd']; subst.
  change (map (retag ws r) ((k, v) :: l)) with (retag ws r (k, v) :: map (retag ws r) l).
  unfold lookupSocket in Hl.
  change (find (fun p => (fst p =? ws)%nat) ((k, v) :: l))
    with (if (k =? ws)%nat then Some (k, v) else find (fun p => (fst p =? ws)%nat) l) in Hl.
  unfold retag at 1. cbn [fst].
  destruct (Nat.eqb_spec k ws) as [-> | Hne].
  - injection Hl as <-. rewrite retag_absent by trivial.
    rewrite !liveSockets_cons. cbn [snd]. lia.
  - rewrite !liveSockets_cons. cbn [snd].
    specialize (IH Hnd' Hl). lia.
Qed.

Lemma removeHandle_shorter t l :
  existsb (Nat.eqb t) l = true -> List.length (removeHandle t l) < List.length l.
Proof.
  unfold removeHandle. induction l as [|x l IH]; [discriminate|]. intros Hl.
  change (existsb (Nat.eqb t) (x :: l)) with ((t =? x)%nat || existsb (Nat.eqb t) l) in Hl.
  change (filter (fun y => negb (y =? t)%nat) (x :: l))
    with (if negb (x =? t)%nat
          then x :: filter (fun y => negb (y =? t)%nat) l
          else filter (fun y => negb (y =? t)%nat) l).
  rewrite (Nat.eqb_sym x t).
  destruct (t =? x)%nat.
  - cbn [negb]. pose proof (filter_length_le (fun y => negb (y =? t)%nat) l).
    cbn [List.length]. lia.
  - cbn [negb orb] in *. cbn [List.length]. specialize (IH Hl). lia.
Qed.

Section LiveFacts.
Context {H : Host}.
Variable props : Props.

(** What a host event does to the sockets, the pending timers and the next
    handle. *)
Lemma step_shape s e :
  let s' := step props s e in
  (sockets s' = sockets s /\ timeouts s' = timeouts s
   /\ nextHandle s <= nextHandle s')
  \/ (exists ws r0 r,
        readyState ws s = Some r0 /\ isClosed r0 = false /\ isClosed r = false
        /\ sockets s' = map (retag ws r) (sockets s)
        /\ timeouts s' = timeouts s /\ nextHandle s' = nextHandle s)
  \/ (exists ws r0,
        readyState ws s = Some r0 /\ isClosed r0 = false
        /\ sockets s' = map (retag ws CLOSED) (sockets s)
        /\ timeouts s' = (timeouts s ++ [nextHandle s])%list
        /\ nextHandle s' = S (nextHandle s))
  \/ (exists t,
        existsb (Nat.eqb t) (timeouts s) = true
        /\ timeouts s' = removeHandle t (timeouts s)
        /\ ((sockets s' = sockets s /\ nextHandle s' = nextHandle s)
            \/ (sockets s' = (sockets s ++ [(nextHandle s, CONNECTING)])%list
                /\ nextHandle s' = S (nextHandle s)))).
Proof.
  destruct e; handlers; split_tests; cbn;
    first
      [ left; repeat split; first [reflexivity | lia]
      | right; left; do 3 eexists;
        split; [eassumption|]; repeat split; reflexivity
      | right; right; left; do 2 eexists;
        split; [eassumption|]; repeat split; reflexivity
      | right; right; right; eexists; split; [eassumption|];
        split; [reflexivity|]; first [left; split; reflexivity | right; split; reflexivity] ].
Qed.

Lemma step_oneChannel s e : oneChannel s -> oneChannel (step props s e).
Proof.
  intros (Hfresh & Hnd & Hone).
  destruct (step_shape s e)
    as [(Es & Et & Hn)
       | [(ws & r0 & r & Hr & Hc0 & Hc & Es & Et & En)
         | [(ws & r0 & Hr & Hc0 & Es & Et & En)
           | (t & Hin & Et & [[Es En] | [Es En]])]]];
    unfold oneChannel; rewrite Es, Et.
  - repeat split; trivial. intros k Hk. specialize (Hfresh k Hk). lia.
  - rewrite map_fst_retag, En. repeat split; trivial.
    pose proof (@liveSockets_retag ws r r0 (sockets s) Hnd Hr) as E.
    rewrite Hc0, Hc in E. lia.
  - rewrite map_fst_retag, En. repeat split; trivial.
    + intros k Hk. specialize (Hfresh k Hk). lia.
    + pose proof (@liveSockets_retag ws CLOSED r0 (sockets s) Hnd Hr) as E.
      rewrite Hc0 in E. cbn [isClosed] in E. rewrite length_app. cbn [List.length]. lia.
  - rewrite En. repeat split; trivial.
    pose proof (removeHandle_shorter t (timeouts s) Hin). lia.
  - rewrite En, map_app. repeat split.
    + intros k Hk. apply in_app_or in Hk. destruct Hk as [Hk | [<- | []]].
      * specialize (Hfresh k Hk). lia.
      * cbn [fst]. lia.
    + apply NoDup_app; trivial.
      * repeat constructor. intros [].
      * intros k Hk [<- | []]. specialize (Hfresh _ Hk). cbn [fst] in Hfresh. lia.
    + rewrite liveSockets_app_connecting.
      pose proof (removeHandle_shorter t (timeouts s) Hin). lia.
Qed.

Lemma mount_oneChannel : oneChannel (mount props initialState).
Proof.
  unfold oneChannel. handlers; split_tests; cbv; repeat split;
    try (intros k Hk; repeat destruct Hk as [<- | Hk]; try contradiction; lia);
    try lia; repeat constructor; intros Hin; repeat destruct Hin as [? | Hin]; auto.
Qed.

End LiveFacts.

(** X14: one connection at a time.  After the component has been mounted,
    whatever host events follow, at most one socket is not yet closed, and
    while one is, no reconnection timer is pending: live sockets and pending
    reconnection timers together never number more than one. *)
Theorem at_most_one_live_connection {H : Host} (props : Props)
    (events : list Event) :
  let s := run props (mount props initialState) events in
  liveSockets (sockets s) + List.length (timeouts s) <= 1.
Proof.
  cbn zeta.
  assert (Hinv : forall s, oneChannel s -> oneChannel (run props s events)).
  { induction events as [|e events IH]; intros s Hs; [exact Hs|].
    change (run props s (e :: events)) with (run props (step props s e) events).
    apply IH. now apply step_oneChannel. }
  exact (proj2 (proj2 (Hinv _ (mount_oneChannel props)))).
Qed.

(** ** The request URL *)

Lemma stripTrailingSlash_append e : stripTrailingSlash (e ++ "/") = e.
Proof.
  induction e as [|c e IH]; [reflexivity|].
  change (String c e ++ "/") with (String c (e ++ "/")).
  destruct e as [|c' e]; [reflexivity|].
  change (String c' e ++ "/") with (String c' (e ++ "/")) in *.
  change (stripTrailingSlash (String c (String c' (e ++ "/"))))
    with (String c (stripTrailingSlash (String c' (e ++ "/")))).
  now rewrite IH.
Qed.

Lemma stripTrailingSlash_none e : endsWithSlash e = false -> stripTrailingSlash e = e.
Proof.
  induction e as [|c e IH]; [reflexivity|].
  destruct e as [|c' e].
  - intros Hc. change (endsWithSlash (String c EmptyString)) with (c =? "/")%char in Hc.
    change (stripTrailingSlash (String c EmptyString))
      with (if (c =? "/")%char then EmptyString else String c EmptyString).
    now rewrite Hc.
  - intros Hc. change (endsWithSlash (String c (String c' e)))
      with (endsWithSlash (String c' e)) in Hc.
    change (stripTrailingSlash (String c (String c' e)))
      with (String c (stripTrailingSlash (String c' e))).
    now rewrite IH.
Qed.

(** X15: one trailing slash of the endpoint makes no difference.  The URL
    requested for an endpoint written with a final slash is the endpoint, a
    slash and the encoded wallet address, which is also the URL for the same
    endpoint written without it: the path never gets a doubled slash from a
    single trailing one. *)
Theorem trailing_slash_is_immaterial (endpoint wallet : string) :
  requestUrl (endpoint ++ "/") wallet = endpoint ++ "/" ++ encodeURIComponent wallet
  /\ (endsWithSlash endpoint = false ->
      requestUrl endpoint wallet = requestUrl (endpoint ++ "/") wallet).
Proof.
  unfold requestUrl. rewrite stripTrailingSlash_append. split; [reflexivity|].
  intros Hno. now rewrite stripTrailingSlash_none.
Qed.

Lemma trailing_slash_is_immaterial_witness :
  requestUrl "https://x/mv" "wallet1" = requestUrl "https://x/mv/" "wallet1".
Proof.
  assert (Hno : endsWithSlash "https://x/mv" = false) by reflexivity.
  exact (proj2 (trailing_slash_is_immaterial "https://x/mv" "wallet1") Hno).
Defined.

Lemma list_ascii_of_string_app a b :
  list_ascii_of_string (a ++ b) = (list_ascii_of_string a ++ list_ascii_of_string b)%list.
Proof.
  induction a as [|c a IH]; [reflexivity|].
  change (String c a ++ b) with (String c (a ++ b)).
  cbn [list_ascii_of_string]. rewrite IH. reflexivity.
Qed.

Lemma upperHexDigit_unreserved k : k < 16 -> unreserved (upperHexDigit k) = true.
Proof.
  intros Hk.
  do 16 (destruct k as [|k]; [reflexivity|]). lia.
Qed.

Lemma percentEncode_chars c x :
  In x (list_ascii_of_string (percentEncode c)) ->
  unreserved x = true \/ x = "%"%char.
Proof.
  assert (Hc : nat_of_ascii c < 256) by apply nat_ascii_bounded.
  unfold percentEncode. cbn [list_ascii_of_string].
  intros [<- | [<- | [<- | []]]].
  - now right.
  - left. apply upperHexDigit_unreserved. apply Nat.Div0.div_lt_upper_bound. lia.
  - left. apply upperHexDigit_unreserved. apply Nat.mod_upper_bound. lia.
Qed.

(** X16: the wallet address cannot reshape the URL.  Every character of
    [encodeURIComponent(walletAddress)] is a letter, a digit, one of
    [- _ . ! ~ * ' ( )] or a percent sign, so the encoded segment holds no
    slash, question mark, hash or ampersand; a wallet address made of
    unreserved characters only is passed through unchanged. *)
Theorem encoded_wallet_is_one_segment (wallet : string) :
  (forall c, In c (list_ascii_of_string (encodeURIComponent wallet)) ->
             unreserved c = true \/ c = "%"%char)
  /\ (forall c, In c ["/"; "?"; "#"; "&"; "="; " "]%char ->
                ~ In c (list_ascii_of_string (encodeURIComponent wallet)))
  /\ ((forall c, In c (list_ascii_of_string wallet) -> unreserved c = true) ->
      encodeURIComponent wallet = wallet).
Proof.
  assert (Hall : forall c, In c (list_ascii_of_string (encodeURIComponent wallet)) ->
                           unreserved c = true \/ c = "%"%char).
  { induction wallet as [|a w IH]; [intros c []|].
    intros c. cbn [encodeURIComponent]. rewrite list_ascii_of_string_app.
    intros Hin. apply in_app_or in Hin. destruct Hin as [Hin | Hin]; [|now apply IH].
    destruct (unreserved a) eqn:Ha.
    - destruct Hin as [<- | []]. now left.
    - exact (@percentEncode_chars a c Hin). }
  split; [exact Hall|]. split.
  - intros c Hc Hin. destruct (Hall c Hin) as [Hu | ->].
    + repeat destruct Hc as [<- | Hc]; try discriminate Hu; contradiction.
    + repeat destruct Hc as [Hc | Hc]; try discriminate Hc; contradiction.
  - clear Hall. induction wallet as [|a w IH]; intros Hw; [reflexivity|].
    cbn [encodeURIComponent]. rewrite (Hw a) by now left.
    rewrite IH; [reflexivity|]. intros c Hc. apply Hw. now right.
Qed.

Lemma encoded_wallet_is_one_segment_witness :
  encodeURIComponent "wallet1" = "wallet1".
Proof.
  apply (proj2 (proj2 (encoded_wallet_is_one_segment "wallet1"))).
  intros c Hc. repeat destruct Hc as [<- | Hc]; try reflexivity. contradiction.
Defined.

(** ** More on the normaliser *)

Section NormalizerMore.
Context {H : Host}.

Lemma insertAll_inOrder l : forall acc,
  Sorted inOrder l ->
  (forall x y, hd_error l = Some x -> hd_error acc = Some y -> inOrder y x) ->
  insertAll l acc = Some (rev l ++ acc)%list.
Proof.
  induction l as [|x xs IH]; intros acc Hs Hhd; [reflexivity|].
  apply Sorted_inv in Hs. destruct Hs as [Hs Hx].
  cbn [insertAll rev].
  assert (Ei : insertByName x acc = Some (x :: acc)).
  { destruct acc as [|y ys]; [reflexivity|].
    destruct (Hhd x y eq_refl eq_refl) as (c & Hc & Hne).
    cbn [insertByName]. rewrite Hc. now destruct c. }
  rewrite Ei. cbn.
  rewrite IH; trivial.
  - now rewrite <- app_assoc.
  - intros x' y Hx' [= <-]. destruct xs as [|z zs]; [discriminate Hx'|].
    injection Hx' as <-. now apply HdRel_inv in Hx.
Qed.

Lemma sortByName_inOrder l : Sorted inOrder l -> sortByName l = Some l.
Proof.
  intros Hs. unfold sortByName.
  rewrite (@insertAll_inOrder l []); trivial; [|discriminate].
  cbn. now rewrite app_nil_r, rev_involutive.
Qed.

Lemma insertByName_same x n :
  (exists c, compareByName x x = Some c) ->
  insertByName x (repeat x n) = Some (repeat x (S n)).
Proof.
  intros (c & Hc). induction n as [|n IH]; [reflexivity|].
  cbn [repeat insertByName]. rewrite Hc.
  destruct c; try reflexivity. now rewrite IH.
Qed.

Lemma insertAll_same x n : forall m,
  (exists c, compareByName x x = Some c) ->
  insertAll (repeat x n) (repeat x m) = Some (repeat x (n + m)).
Proof.
  induction n as [|n IH]; intros m Hc; [reflexivity|].
  cbn [repeat insertAll]. rewrite insertByName_same by trivial. cbv beta iota.
  rewrite (IH (S m)) by trivial. now rewrite Nat.add_succ_r.
Qed.

Lemma rev_repeat_same {A : Type} (x : A) n : rev (repeat x n) = repeat x n.
Proof.
  induction n as [|n IH]; [reflexivity|].
  cbn [repeat rev]. rewrite IH. symmetry. apply repeat_cons.
Qed.

Lemma sortByName_same x n :
  (exists c, compareByName x x = Some c) ->
  sortByName (repeat x n) = Some (repeat x n).
Proof.
  intros Hc. unfold sortByName.
  change (@nil any) with (repeat x 0).
  rewrite (insertAll_same x n 0 Hc). cbv beta iota.
  now rewrite Nat.add_0_r, rev_repeat_same.
Qed.

Lemma mapM_repeat {A B : Type} (f : A -> option B) a b n :
  f a = Some b -> mapM f (repeat a n) = Some (repeat b n).
Proof.
  intros Hf. induction n as [|n IH]; [reflexivity|].
  cbn [repeat mapM]. now rewrite Hf, IH.
Qed.

End NormalizerMore.

(** X17: entries that arrive in order stay as they are.  When the
    comparator, called on each entry and the one before it, never answers
    that the later one is the smaller (names ascending, equal names
    included), [normalizeToRadarData] returns the axes in the order of the
    input: equal names are not reordered. *)
Theorem normalize_keeps_ordered_input {H : Host} (vector : MindVector)
    (l : list any) :
  dimensions vector = VArr l ->
  Sorted inOrder l ->
  normalizeToRadarData vector = mapM toRadarDatum l.
Proof.
  intros Hd Hs. unfold normalizeToRadarData. rewrite Hd.
  now rewrite (sortByName_inOrder Hs).
Qed.

Lemma normalize_keeps_ordered_input_witness :
  normalizeToRadarData
    (vectorOf (VArr [dim "a" (VNum (Finite 1)); dim "a" (VNum (Finite 2));
                     dim "b" (VNum (Finite 3))]))
  = Some [ {| subject := VStr "a"; value := Finite 1 |};
           {| subject := VStr "a"; value := Finite 2 |};
           {| subject := VStr "b"; value := Finite 3 |} ].
Proof.
  assert (Hs : Sorted inOrder
                 [dim "a" (VNum (Finite 1)); dim "a" (VNum (Finite 2));
                  dim "b" (VNum (Finite 3))]).
  { repeat constructor; eexists; (split; [reflexivity | discriminate]). }
  exact (@normalize_keeps_ordered_input exampleHost
           (vectorOf (VArr [dim "a" (VNum (Finite 1)); dim "a" (VNum (Finite 2));
                            dim "b" (VNum (Finite 3))])) _ eq_refl Hs).
Defined.

(** X18: a legacy numeric array renders as flat axes.  The vector that the
    fetch path builds from a body without [dimensions] whose [vector] is an
    array of raw numbers is normalised, on every host, to one axis per
    number, each with the subject [dim] and the value [0]. *)
Theorem legacy_numbers_render_flat {H : Host} (data : any) (ns : list number)
    (now : string) :
  get data "dimensions" = Some VUndefined ->
  get data "vector" = Some (VArr (map VNum ns)) ->
  exists vector,
    vectorOfBody data now = Some vector
    /\ normalizeToRadarData vector
       = Some (repeat {| subject := VStr "dim"; value := zero |} (List.length ns)).
Proof.
  intros Hd Hv. unfold vectorOfBody.
  destruct data as [| | | | | |props]; try discriminate Hd; try discriminate Hv.
  rewrite Hd, Hv.
  change (get (VObj props) "timestamp")
    with (Some (match own "timestamp" props with Some x => x | None => VUndefined end)).
  change (get (VObj props) "visualState")
    with (Some (match own "visualState" props with Some x => x | None => VUndefined end)).
  change (get (VObj props) "emoji")
    with (Some (match own "emoji" props with Some x => x | None => VUndefined end)).
  cbv beta iota.
  change (ToBoolean VUndefined) with false.
  change (ToBoolean (VArr (map VNum ns))) with true.
  cbv beta iota.
  rewrite mapM_dimensionOfEntry_numbers.
  eexists. split; [reflexivity|].
  unfold normalizeToRadarData. cbn [dimensions].
  rewrite map_const.
  rewrite sortByName_same by (eexists; reflexivity).
  now apply mapM_repeat.
Qed.

Lemma legacy_numbers_render_flat_witness :
  exists vector,
    vectorOfBody legacyBody sampleNow = Some vector
    /\ normalizeToRadarData vector
       = Some [ {| subject := VStr "dim"; value := zero |};
                {| subject := VStr "dim"; value := zero |} ].
Proof.
  apply (@legacy_numbers_render_flat exampleHost legacyBody [Finite 1; Finite 2] sampleNow);
    reflexivity.
Defined.

(** X19: dimensions that are not an array are stored and then break the
    normaliser.  An update whose [dimensions] is truthy but not an array (a
    string, a number, an object) is accepted like any other: it becomes the
    current vector; [normalizeToRadarData] throws on it. *)
Theorem non_array_dimensions_stored_then_throw {H : Host} (props : Props)
    (s : State) (ws : nat) (data : any) (now : string) :
  readyState ws s = Some OPEN ->
  mountedRef s = true ->
  ToBoolean data = true ->
  ToBoolean (get_opt data "dimensions") = true ->
  isArray (get_opt data "dimensions") = false ->
  let vector := vectorOfUpdate data now in
  current (step props s (WsMessage ws (Some (updateOf data)) now)) = Some vector
  /\ normalizeToRadarData vector = None.
Proof.
  intros Hopen Hm Hdata Hdims Harr. cbn zeta. split.
  - now destruct (@push_update_accepted _ props s ws data now Hopen Hm Hdata) as (E & _).
  - unfold normalizeToRadarData, vectorOfUpdate, or_else. cbn [dimensions].
    rewrite Hdims. now destruct (get_opt data "dimensions").
Qed.

Lemma non_array_dimensions_stored_then_throw_witness :
  let data := VObj [("dimensions", VStr "calm")] in
  let s := exec pushProps [Mount; Deliver (WsOpen 0)] in
  current (step pushProps s (WsMessage 0 (Some (updateOf data)) sampleNow))
  = Some (vectorOfUpdate data sampleNow)
  /\ normalizeToRadarData (vectorOfUpdate data sampleNow) = None.
Proof.
  cbn zeta.
  assert (Hopen : readyState 0 (exec pushProps [Mount; Deliver (WsOpen 0)]) = Some OPEN)
    by reflexivity.
  assert (Hm : mountedRef (exec pushProps [Mount; Deliver (WsOpen 0)]) = true)
    by reflexivity.
  assert (Hdata : ToBoolean (VObj [("dimensions", VStr "calm")]) = true) by reflexivity.
  assert (Hdims : ToBoolean (get_opt (VObj [("dimensions", VStr "calm")]) "dimensions")
                  = true) by reflexivity.
  assert (Harr : isArray (get_opt (VObj [("dimensions", VStr "calm")]) "dimensions")
                 = false) by reflexivity.
  exact (@non_array_dimensions_stored_then_throw exampleHost pushProps _ 0 _ sampleNow
           Hopen Hm Hdata Hdims Harr).
Defined.

(** ** The order of the axes does not depend on the order of arrival *)

Section OrderIndependence.
Context {H : Host}.
Hypothesis flip : forall s t, localeCompare t s = CompOpp (localeCompare s t).
Hypothesis trans :
  forall s t u, localeCompare s t <> Gt -> localeCompare t u <> Gt ->
                localeCompare s u <> Gt.

Lemma hasStringName_key d : hasStringName d -> exists s, keyOf d = Some s.
Proof. intros (s & Hs). exists s. unfold keyOf. now rewrite Hs. Qed.

Lemma compareByName_total a b :
  hasStringName a -> hasStringName b -> exists c, compareByName a b = Some c.
Proof.
  intros (s & Hs) (t & Ht). unfold compareByName. rewrite Hs, Ht. cbn. eauto.
Qed.

Lemma insertByName_total x l :
  hasStringName x -> Forall hasStringName l -> exists r, insertByName x l = Some r.
Proof.
  intros Hx Hl. induction Hl as [|y ys Hy Hys IH]; [cbn; eauto|].
  cbn [insertByName].
  destruct (compareByName_total Hx Hy) as (c & ->).
  destruct IH as (r & ->). destruct c; eauto.
Qed.

Lemma insertAll_total l : forall acc,
  Forall hasStringName l -> Forall hasStringName acc ->
  exists r, insertAll l acc = Some r.
Proof.
  induction l as [|x xs IH]; intros acc Hl Hacc; [cbn; eauto|].
  apply Forall_cons_iff in Hl. destruct Hl as [Hx Hxs].
  cbn [insertAll].
  destruct (insertByName_total Hx Hacc) as (s & Hs). rewrite Hs.
  apply IH; trivial.
  apply (Permutation_Forall (insertByName_perm _ _ Hs)). now constructor.
Qed.

Lemma sortByName_total l :
  Forall hasStringName l -> exists r, sortByName l = Some r.
Proof.
  intros Hl. unfold sortByName.
  destruct (@insertAll_total l [] Hl (Forall_nil _)) as (s & ->). eauto.
Qed.

Lemma rawLe_trans a b c : rawLe a b -> rawLe b c -> rawLe a c.
Proof.
  intros (s & t & Ks & Kt & Hst) (t' & u & Kt' & Ku & Htu).
  rewrite Kt in Kt'. injection Kt' as <-.
  exists s, u. repeat split; trivial. now apply trans with t.
Qed.

Lemma sorted_permutation_unique r1 :
  forall r2,
    StronglySorted rawLe r1 -> StronglySorted rawLe r2 -> Permutation r1 r2 ->
    (forall a b, In a r1 -> In b r1 -> rawLe a b -> rawLe b a -> a = b) ->
    r1 = r2.
Proof.
  induction r1 as [|a r1 IH]; intros r2 S1 S2 Hp Hanti.
  - apply Permutation_nil in Hp. now subst.
  - destruct r2 as [|b r2].
    { apply Permutation_sym, Permutation_nil in Hp. discriminate Hp. }
    apply StronglySorted_inv in S1. destruct S1 as [S1 F1].
    apply StronglySorted_inv in S2. destruct S2 as [S2 F2].
    assert (Hab : a = b).
    { assert (Ha : In a (b :: r2)) by (apply (Permutation_in _ Hp); now left).
      assert (Hb : In b (a :: r1))
        by (apply (Permutation_in _ (Permutation_sym Hp)); now left).
      destruct Ha as [<- | Ha]; [reflexivity|].
      destruct Hb as [<- | Hb]; [reflexivity|].
      apply Hanti; [now left | now right | |].
      - rewrite Forall_forall in F1. now apply F1.
      - rewrite Forall_forall in F2. now apply F2. }
    subst b. f_equal. apply IH; trivial.
    + now apply Permutation_cons_inv in Hp.
    + intros x y Hx Hy. apply Hanti; now right.
Qed.

Lemma sortByName_permutation_invariant l1 l2 :
  Forall hasStringName l1 ->
  (forall a b sa sb,
      In a l1 -> In b l1 ->
      get a "name" = Some (VStr sa) -> get b "name" = Some (VStr sb) ->
      localeCompare sa sb = Eq -> a = b) ->
  Permutation l1 l2 ->
  exists r, sortByName l1 = Some r /\ sortByName l2 = Some r.
Proof.
  intros Hn Hdistinct Hp.
  destruct (sortByName_total Hn) as (r1 & E1).
  destruct (sortByName_total (Permutation_Forall Hp Hn)) as (r2 & E2).
  exists r1. split; trivial. rewrite E2. f_equal. symmetry.
  pose proof (sortByName_perm _ E1) as P1.
  pose proof (sortByName_perm _ E2) as P2.
  apply sorted_permutation_unique.
  - apply Sorted_StronglySorted; [exact rawLe_trans|]. exact (sortByName_sorted flip _ E1).
  - apply Sorted_StronglySorted; [exact rawLe_trans|]. exact (sortByName_sorted flip _ E2).
  - now rewrite <- P1, Hp.
  - intros a b Ha Hb (s & t & Ks & Kt & Hst) (t' & s' & Kt' & Ks' & Hts).
    rewrite Ks in Ks'. injection Ks' as <-. rewrite Kt in Kt'. injection Kt' as <-.
    apply (Permutation_in _ (Permutation_sym P1)) in Ha, Hb.
    rewrite Forall_forall in Hn.
    destruct (Hn a Ha) as (sa & Hsa). destruct (Hn b Hb) as (sb & Hsb).
    unfold keyOf in Ks, Kt. rewrite Hsa in Ks. rewrite Hsb in Kt.
    cbn in Ks, Kt. injection Ks as <-. injection Kt as <-.
    apply (Hdistinct a b sa sb); trivial.
    rewrite flip in Hts. destruct (localeCompare sa sb); trivial; contradiction.
Qed.

End OrderIndependence.

Lemma String_compare_le_trans s t u :
  String.compare s t <> Gt -> String.compare t u <> Gt -> String.compare s u <> Gt.
Proof.
  intros Hst Htu.
  pose proof (OrdersEx.String_as_OT.compare_spec s t) as Sst.
  pose proof (OrdersEx.String_as_OT.compare_spec t u) as Stu.
  change (OrdersEx.String_as_OT.compare s t) with (String.compare s t) in Sst.
  change (OrdersEx.String_as_OT.compare t u) with (String.compare t u) in Stu.
  destruct (String.compare s t) eqn:Est; [ | | now elim Hst].
  - inversion Sst as [Heq | |]. red in Heq. subst t. exact Htu.
  - destruct (String.compare t u) eqn:Etu; [ | | now elim Htu].
    + inversion Stu as [Heq | |]. red in Heq. subst u. rewrite Est. discriminate.
    + assert (Hsu : OrdersEx.String_as_OT.lt s u).
      { eapply OrdersEx.String_as_OT.lt_strorder; [exact Est | exact Etu]. }
      change (String.compare s u = Lt) in Hsu. rewrite Hsu. discriminate.
Qed.

(** X20: the axes come out in the same order however the dimensions arrive.
    On a host whose [localeCompare] is a total preorder, two dimension lists
    that are permutations of each other, made of entries with string names
    no two of which compare equal unless they are the same entry, are
    normalised to the same radar data. *)
Theorem normalize_ignores_arrival_order {H : Host} (v1 v2 : MindVector)
    (l1 l2 : list any) :
  (forall s t, localeCompare t s = CompOpp (localeCompare s t)) ->
  (forall s t u, localeCompare s t <> Gt -> localeCompare t u <> Gt ->
                 localeCompare s u <> Gt) ->
  dimensions v1 = VArr l1 -> dimensions v2 = VArr l2 ->
  Forall hasStringName l1 ->
  (forall a b sa sb,
      In a l1 -> In b l1 ->
      get a "name" = Some (VStr sa) -> get b "name" = Some (VStr sb) ->
      localeCompare sa sb = Eq -> a = b) ->
  Permutation l1 l2 ->
  normalizeToRadarData v1 = normalizeToRadarData v2.
Proof.
  intros flip trans E1 E2 Hn Hdistinct Hp.
  destruct (sortByName_permutation_invariant flip trans Hn Hdistinct Hp)
    as (r & S1 & S2).
  unfold normalizeToRadarData. now rewrite E1, E2, S1, S2.
Qed.

Lemma normalize_ignores_arrival_order_witness :
  normalizeToRadarData
    (vectorOf (VArr [dim "b" (VNum (Finite 1)); dim "a" (VNum (Finite 2))]))
  = normalizeToRadarData
      (vectorOf (VArr [dim "a" (VNum (Finite 2)); dim "b" (VNum (Finite 1))])).
Proof.
  apply (@normalize_ignores_arrival_order exampleHost _ _
           [dim "b" (VNum (Finite 1)); dim "a" (VNum (Finite 2))]
           [dim "a" (VNum (Finite 2)); dim "b" (VNum (Finite 1))]).
  - intros s t. apply String.compare_antisym.
  - exact String_compare_le_trans.
  - reflexivity.
  - reflexivity.
  - repeat constructor; eexists; reflexivity.
  - intros a b sa sb Ha Hb Hsa Hsb Hc.
    destruct Ha as [<- | [<- | []]]; destruct Hb as [<- | [<- | []]];
      trivial; injection Hsa as <-; injection Hsb as <-; discriminate Hc.
  - apply perm_swap.
Defined.

(** ** Dimensions as the type declares them *)

Lemma mapM_returns {A B : Type} (f : A -> option B) l :
  Forall (fun a => exists b, f a = Some b) l ->
  exists r, mapM f l = Some r /\ List.length r = List.length l.
Proof.
  induction 1 as [|a l (b & Hb) _ (r & Hr & Hlen)]; [now exists []|].
  exists (b :: r). cbn [mapM]. rewrite Hb, Hr. cbn. auto.
Qed.

Lemma toRadarDatum_returns {H : Host} d :
  hasStringName d ->
  (exists x, Number (get_opt d "value") = Some x) ->
  exists p, toRadarDatum d = Some p.
Proof.
  intros (s & Hs) (x & Hx). unfold toRadarDatum, get_opt in *. rewrite Hs.
  destruct d; try discriminate Hs; cbn in Hx |- *; rewrite Hx; eauto.
Qed.

(** X23: dimensions of the declared type are always normalised.  When
    [dimensions] is an array whose entries all have a string [name] and a
    [value] that [Number] converts (anything JSON can carry), the comparator
    never throws, whichever entries it is called on, and
    [normalizeToRadarData] returns one axis per entry. *)
Theorem normalize_returns_on_named_entries {H : Host} (vector : MindVector)
    (l : list any) :
  dimensions vector = VArr l ->
  Forall hasStringName l ->
  Forall (fun d => exists x, Number (get_opt d "value") = Some x) l ->
  (forall a b, In a l -> In b l -> exists c, compareByName a b = Some c)
  /\ exists r, normalizeToRadarData vector = Some r
               /\ List.length r = List.length l.
Proof.
  intros Hd Hnames Hvalues. split.
  { intros a b Ha Hb. rewrite Forall_forall in Hnames.
    apply compareByName_returns. split; [now apply Hnames|].
    apply hasStringName_hasKey. now apply Hnames. }
  unfold normalizeToRadarData. rewrite Hd. unfold sortByName.
  destruct (@insertAll_returns _ l [] Hnames (Forall_nil _)) as (s & Hs).
  rewrite Hs. cbv beta iota.
  assert (Hp : Permutation l (rev s)).
  { rewrite <- Permutation_rev, <- (insertAll_perm _ _ Hs). now rewrite app_nil_r. }
  assert (Hall : Forall (fun d => exists p, toRadarDatum d = Some p) (rev s)).
  { apply (Permutation_Forall Hp). rewrite Forall_forall in *.
    intros d Hin. apply toRadarDatum_returns; auto. }
  destruct (mapM_returns _ Hall) as (r & Hr & Hlen).
  exists r. split; trivial.
  rewrite Hlen. symmetry. now apply Permutation_length.
Qed.

Lemma normalize_returns_on_named_entries_witness :
  let l := [dim "b" (VNum (Finite 1)); dim "a" (VStr "x")] in
  exists r, normalizeToRadarData (vectorOf (VArr l)) = Some r
            /\ List.length r = 2.
Proof.
  cbn zeta.
  assert (Hnames : Forall hasStringName
                     [dim "b" (VNum (Finite 1)); dim "a" (VStr "x")])
    by (repeat constructor; eexists; reflexivity).
  assert (Hvalues : Forall (fun d => exists x, Number (get_opt d "value") = Some x)
                      [dim "b" (VNum (Finite 1)); dim "a" (VStr "x")])
    by (repeat constructor; eexists; reflexivity).
  exact (proj2 (@normalize_returns_on_named_entries exampleHost
                  (vectorOf (VArr [dim "b" (VNum (Finite 1)); dim "a" (VStr "x")]))
                  _ eq_refl Hnames Hvalues)).
Defined.

(** ** The socket in [wsRef] *)

Lemma in_map_retag ws r k r' l :
  In (k, r') (map (retag ws r) l) -> (k = ws /\ r' = r) \/ In (k, r') l.
Proof.
  rewrite in_map_iff. intros ([k0 v0] & E & Hin). unfold retag in E. cbn [fst] in E.
  destruct (Nat.eqb_spec k0 ws).
  - injection E as <- <-. now left.
  - injection E as <- <-. now right.
Qed.

Lemma lookupSocket_In ws r l : lookupSocket ws l = Some r -> In (ws, r) l.
Proof.
  unfold lookupSocket. destruct (find _ l) as [[k v]|] eqn:Hf; [|discriminate].
  intros [= <-]. apply find_some in Hf. destruct Hf as [Hin Hk].
  cbn [fst] in Hk. apply Nat.eqb_eq in Hk. now subst.
Qed.

Lemma liveSockets_zero l k r :
  liveSockets l = 0 -> In (k, r) l -> isClosed r = true.
Proof.
  induction l as [|p l IH]; intros Hz Hin; [destruct Hin|].
  rewrite liveSockets_cons in Hz.
  destruct Hin as [-> | Hin].
  - cbn [snd] in Hz. destruct (isClosed r); [reflexivity | discriminate Hz].
  - apply IH; trivial. destruct (isClosed (snd p)); lia.
Qed.

Lemma existsb_eqb_nonempty t (l : list nat) :
  existsb (Nat.eqb t) l = true -> 1 <= List.length l.
Proof. destruct l; [discriminate | cbn [List.length]; lia]. Qed.

Section CurrentSocketFacts.
Context {H : Host}.
Variable props : Props.

(** [step_shape], with what happens to [wsRef]. *)
Lemma step_shape_ref s e :
  let s' := step props s e in
  (sockets s' = sockets s /\ wsRef s' = wsRef s)
  \/ (exists ws r0 r,
        readyState ws s = Some r0 /\ isClosed r0 = false
        /\ sockets s' = map (retag ws r) (sockets s) /\ wsRef s' = wsRef s)
  \/ (exists t,
        existsb (Nat.eqb t) (timeouts s) = true
        /\ sockets s' = (sockets s ++ [(nextHandle s, CONNECTING)])%list
        /\ wsRef s' = Some (nextHandle s)).
Proof.
  destruct e; handlers; split_tests; cbn;
    first
      [ left; split; reflexivity
      | right; left; do 3 eexists;
        split; [eassumption|]; repeat split; reflexivity
      | right; right; eexists; split; [eassumption|]; split; reflexivity ].
Qed.

Lemma step_onlyCurrentLive s e :
  oneChannel s -> onlyCurrentLive s -> onlyCurrentLive (step props s e).
Proof.
  intros (_ & _ & Hone) Hinv.
  destruct (step_shape_ref s e)
    as [(Es & Ew) | [(ws & r0 & r & Hr & Hc0 & Es & Ew) | (t & Hin & Es & Ew)]];
    unfold onlyCurrentLive; rewrite Es, Ew.
  - exact Hinv.
  - intros k r' Hk Hlive. apply in_map_retag in Hk.
    destruct Hk as [[-> ->] | Hk]; [|now apply (Hinv k r')].
    apply (Hinv ws r0); trivial. now apply lookupSocket_In.
  - intros k r' Hk Hlive. apply in_app_or in Hk.
    destruct Hk as [Hk | [[= <- <-] | []]]; [|reflexivity].
    pose proof (existsb_eqb_nonempty _ _ Hin) as Hlen.
    assert (Hz : liveSockets (sockets s) = 0) by lia.
    rewrite (liveSockets_zero _ _ _ Hz Hk) in Hlive. discriminate Hlive.
Qed.

Lemma mount_onlyCurrentLive : onlyCurrentLive (mount props initialState).
Proof.
  unfold onlyCurrentLive. handlers; split_tests; cbv;
    intros ws r Hin; repeat destruct Hin as [Hin | Hin]; try contradiction;
    injection Hin as <- <-; reflexivity.
Qed.

End CurrentSocketFacts.

(** X21: no connection is left behind.  After the component has been
    mounted, whatever host events follow, every socket that is not closed is
    the one [wsRef] holds: a reconnection never leaves an older socket
    open. *)
Theorem live_socket_is_in_wsRef {H : Host} (props : Props) (events : list Event)
    (ws : nat) (r : ReadyState) :
  let s := run props (mount props initialState) events in
  In (ws, r) (sockets s) -> isClosed r = false -> wsRef s = Some ws.
Proof.
  cbn zeta.
  assert (Hinv : forall s, oneChannel s /\ onlyCurrentLive s ->
                           oneChannel (run props s events)
                           /\ onlyCurrentLive (run props s events)).
  { induction events as [|e events IH]; intros s Hs; [exact Hs|].
    change (run props s (e :: events)) with (run props (step props s e) events).
    apply IH. destruct Hs as [Hone Hcur].
    split; [now apply step_oneChannel | now apply step_onlyCurrentLive]. }
  destruct (Hinv _ (conj (mount_oneChannel props) (mount_onlyCurrentLive props)))
    as [_ Hcur].
  apply Hcur.
Qed.

Lemma live_socket_is_in_wsRef_witness :
  wsRef (run pushProps (mount pushProps initialState)
           [WsOpen 0; WsClose 0; TimeoutFired 1; WsOpen 2]) = Some 2.
Proof.
  assert (Hin : In (2, OPEN)
                  (sockets (run pushProps (mount pushProps initialState)
                              [WsOpen 0; WsClose 0; TimeoutFired 1; WsOpen 2]))).
  { right. left. reflexivity. }
  assert (Hlive : isClosed OPEN = false) by reflexivity.
  exact (@live_socket_is_in_wsRef exampleHost pushProps
           [WsOpen 0; WsClose 0; TimeoutFired 1; WsOpen 2] 2 OPEN Hin Hlive).
Defined.
